(** * TrendRadar subscription manager: keyword matching, webhooks, AI-search
      policy and configuration validation

    A shallow embedding of [SubscriptionManager] (subscription_manager.py).

    The manager works on the value produced by [json.load]: nested Python
    dicts, lists, strings, integers, booleans and [None], accessed with
    [dict.get(key, default)], truthiness tests and iteration.  The embedding
    keeps that dynamic shape: a [json] value type, and a [result] type whose
    [Raise] case stands for the Python exception an ill-typed access raises.

    Conventions of the model:
    - a Python [str] is the [string] of its UTF-8 bytes; the substring test
      [a in b] on code points coincides with the substring test on the
      UTF-8 bytes of well-formed strings;
    - [str.lower] is Python's Unicode lowercasing; it is a parameter
      ([lower]) of the development, so every result holds for any such map;
    - JSON numbers are integers ([Z]); float-valued fields are outside the
      model;
    - a dict is a [gmap string json].  Iterating over a dict yields its keys
      in the map's order rather than Python's insertion order; the manager
      only ever iterates over a dict on ill-typed configurations, where the
      outcome does not depend on that order;
    - [print] output is modelled where a function's behaviour is its report
      ([validate_config], [export_config]); elsewhere only the evaluation of
      the printed expressions is kept, since it can raise. *)

From Stdlib Require Import ZArith Ascii String.
From stdpp Require Import gmap strings list fin_maps pretty.

#[local] Set Warnings "-register-all".
#[local] Open Scope Z_scope.

(** ** Values and exceptions *)

Inductive json : Type :=
  | JNull
  | JBool (b : bool)
  | JInt (z : Z)
  | JStr (s : string)
  | JList (l : list json)
  | JObj (d : gmap string json).

Inductive exn : Type :=
  | AttributeError
  | TypeError
  | OSError
  | KeyboardInterrupt.

Inductive result (A : Type) : Type :=
  | Ok (a : A)
  | Raise (e : exn).
Arguments Ok {A} a.
Arguments Raise {A} e.

#[export] Instance result_ret : MRet result := @Ok.
#[export] Instance result_bind : MBind result :=
  λ A B f m, match m with Ok a => f a | Raise e => Raise e end.

(** ** Python primitives used by the manager *)

(** [needle in hay] on strings. *)
Fixpoint contains (needle hay : string) : bool :=
  String.prefix needle hay
  || match hay with
     | EmptyString => false
     | String _ hay' => contains needle hay'
     end.

(** Bytes [0x80..0xBF] continue a UTF-8 encoded code point. *)
Definition is_continuation (a : ascii) : bool :=
  let n := nat_of_ascii a in ((128 <=? n) && (n <? 192))%nat.

(** Whether a string starts in the middle of an encoded code point. *)
Definition starts_inside_char (s : string) : bool :=
  match s with
  | EmptyString => false
  | String b _ => is_continuation b
  end.

(** The characters of a [str], as iteration over it yields them. *)
Fixpoint chars (s : string) : list string :=
  match s with
  | EmptyString => []
  | String a s' =>
      match chars s' with
      | c :: cs =>
          if starts_inside_char s' then String a c :: cs
          else String a EmptyString :: c :: cs
      | [] => [String a EmptyString]
      end
  end.

(** [bool(v)]. *)
Definition truthy (v : json) : bool :=
  match v with
  | JNull => false
  | JBool b => b
  | JInt z => negb (z =? 0)
  | JStr s => negb (String.eqb s EmptyString)
  | JList l => negb (Nat.eqb (length l) 0)
  | JObj d => negb (Nat.eqb (size d) 0)
  end.

(** [v.get(k, dflt)]: only dicts have a [get] method. *)
Definition dict_get (v : json) (k : string) (dflt : json) : result json :=
  match v with
  | JObj d => Ok (default dflt (d !! k))
  | _ => Raise AttributeError
  end.

(** [iter(v)]: lists yield their elements, strings their characters, dicts
    their keys; nothing else is iterable. *)
Definition py_iter (v : json) : result (list json) :=
  match v with
  | JList l => Ok l
  | JStr s => Ok (JStr <$> chars s)
  | JObj d => Ok (JStr <$> (map_to_list d).*1)
  | _ => Raise TypeError
  end.

(** The integer a value stands for in [<], [>] and slicing against an
    [int]: [bool] is a subclass of [int]; comparing anything else with an
    [int] raises. *)
Definition as_number (v : json) : result Z :=
  match v with
  | JInt z => Ok z
  | JBool b => Ok (Z.b2z b)
  | _ => Raise TypeError
  end.

(** [any(f(x) for x in l)] and [all(f(x) for x in l)]: both stop at the
    first deciding element, so later elements are never evaluated. *)
Fixpoint any_m {A} (f : A → result bool) (l : list A) : result bool :=
  match l with
  | [] => Ok false
  | x :: l' => b ← f x; if b : bool then Ok true else any_m f l'
  end.

Fixpoint all_m {A} (f : A → result bool) (l : list A) : result bool :=
  match l with
  | [] => Ok true
  | x :: l' => b ← f x; if b : bool then all_m f l' else Ok false
  end.

Section Matcher.

(** Python's [str.lower]. *)
Variable lower : string → string.

(** [v.lower()]: only strings have a [lower] method. *)
Definition str_lower (v : json) : result string :=
  match v with
  | JStr s => Ok (lower s)
  | _ => Raise AttributeError
  end.

(** ** match_news_for_subscription *)

(** [any(kw.lower() in title for kw in kws)] *)
Definition any_in_title (kws : json) (title : string) : result bool :=
  l ← py_iter kws;
  any_m (λ kw, k ← str_lower kw; Ok (contains k title)) l.

(** [all(req.lower() in title for req in kws)] *)
Definition all_in_title (kws : json) (title : string) : result bool :=
  l ← py_iter kws;
  all_m (λ kw, k ← str_lower kw; Ok (contains k title)) l.

(** Rule 1: [true] when the item is skipped because of an excluded term. *)
Definition rule1_rejects (excluded_kws : json) (title : string) : result bool :=
  if truthy excluded_kws then any_in_title excluded_kws title else Ok false.

(** Rule 2: [true] when the item is skipped for lack of a normal keyword. *)
Definition rule2_rejects (normal_kws : json) (title : string) : result bool :=
  if truthy normal_kws
  then b ← any_in_title normal_kws title; Ok (negb b)
  else Ok false.

(** Rule 3: [true] when the item is skipped for lack of a required term. *)
Definition rule3_rejects (required_kws : json) (title : string) : result bool :=
  if truthy required_kws
  then b ← all_in_title required_kws title; Ok (negb b)
  else Ok false.

(** The body of the loop over [news_data]: [Ok true] when the item reaches
    [matched_news.append(news)], [Ok false] when a [continue] skips it. *)
Definition news_passes (normal_kws required_kws excluded_kws news : json)
  : result bool :=
  t ← dict_get news "title" (JStr "");
  title ← str_lower t;
  r1 ← rule1_rejects excluded_kws title;
  if r1 : bool then Ok false else
  r2 ← rule2_rejects normal_kws title;
  if r2 : bool then Ok false else
  r3 ← rule3_rejects required_kws title;
  Ok (negb r3).

(** The loop itself, with [matched_news] as the accumulator. *)
Fixpoint match_loop (normal_kws required_kws excluded_kws : json)
    (news_data matched_news : list json) : result (list json) :=
  match news_data with
  | [] => Ok matched_news
  | news :: rest =>
      keep ← news_passes normal_kws required_kws excluded_kws news;
      match_loop normal_kws required_kws excluded_kws rest
        (if keep : bool then matched_news ++ [news] else matched_news)
  end.

Definition match_news_for_subscription (subscription : json)
    (news_data : list json) : result (list json) :=
  _ ← dict_get subscription "name" (JStr "未命名订阅");
  keywords ← dict_get subscription "keywords" (JObj ∅);
  normal_kws ← dict_get keywords "normal" (JList []);
  required_kws ← dict_get keywords "required" (JList []);
  excluded_kws ← dict_get keywords "excluded" (JList []);
  limit ← dict_get keywords "limit" (JInt 0);
  (* the report of the limit evaluates [limit > 0] before the loop *)
  _ ← as_number limit;
  matched_news ← match_loop normal_kws required_kws excluded_kws news_data [];
  lim ← as_number limit;
  if (0 <? lim) && (lim <? Z.of_nat (length matched_news))
  then Ok (firstn (Z.to_nat lim) matched_news)
  else Ok matched_news.

End Matcher.

(** ** should_enable_ai_search and get_ai_search_config *)

Definition should_enable_ai_search (subscription : json) (matched_count : Z)
  : result bool :=
  ai_config ← dict_get subscription "ai_search" (JObj ∅);
  enabled ← dict_get ai_config "enabled" (JBool false);
  if negb (truthy enabled) then Ok false else
  threshold ← dict_get ai_config "trigger_threshold" (JInt 3);
  t ← as_number threshold;
  if matched_count <? t then Ok true else Ok false.

Definition get_ai_search_config (subscription : json) : result json :=
  ai_config ← dict_get subscription "ai_search" (JObj ∅);
  keywords ← dict_get subscription "keywords" (JObj ∅);
  search_keywords ← dict_get ai_config "search_keywords" JNull;
  search_keywords ←
    (if negb (truthy search_keywords)
     then dict_get keywords "normal" (JList [])
     else Ok search_keywords);
  enabled ← dict_get ai_config "enabled" (JBool false);
  trigger_threshold ← dict_get ai_config "trigger_threshold" (JInt 3);
  time_range_hours ← dict_get ai_config "time_range_hours" (JInt 24);
  max_results ← dict_get ai_config "max_results" (JInt 15);
  Ok (JObj (<["enabled" := enabled]>
           (<["trigger_threshold" := trigger_threshold]>
           (<["search_keywords" := search_keywords]>
           (<["time_range_hours" := time_range_hours]>
           (<["max_results" := max_results]> ∅)))))).

(** ** The manager's state *)

Record manager : Type := {
  config_path : string;
  config_data : json;
  subscriptions : json;
  global_settings : json
}.

(** ** validate_config *)

(** What an error message reports; the subscript of [MissingUrl] is the
    1-based position of the webhook. *)
Inductive violation : Type :=
  | MissingName
  | MissingKeywords
  | MissingWebhooks
  | EmptyWebhooks
  | MissingUrl (w_idx : nat).

(** An entry of [errors]: the message [f"[{sub_id}] ..."], kept as the pair
    its text is made of. *)
Record verror : Type := {
  err_sub : json;
  err_what : violation
}.

(** A printed line. *)
Inductive line : Type :=
  | WarnNoSubscriptions
  | ValidationFailed
  | ErrorLine (e : verror)
  | ValidationPassed
  | Exported (output_path : string)
  | ExportFailed (e : exn).

(** The validation loops append to the list [errors] as they go; what they
    have appended stays appended when a later step raises.  A checker is a
    step of such a loop: from the messages so far to an outcome and the
    messages after it. *)
Definition checker (A : Type) : Type := list verror → result A * list verror.

#[export] Instance checker_ret : MRet checker := λ A a errors, (Ok a, errors).
#[export] Instance checker_bind : MBind checker :=
  λ A B f m errors,
    match m errors with
    | (Ok a, errors') => f a errors'
    | (Raise e, errors') => (Raise e, errors')
    end.

(** A step that only computes. *)
Definition lift {A} (r : result A) : checker A := λ errors, (r, errors).

(** [errors.append(...)] *)
Definition report (sub_id : json) (what : violation) : checker unit :=
  λ errors, (Ok (), errors ++ [{| err_sub := sub_id; err_what := what |}]).

(** A checker keeps a property of the messages when every message it leaves
    in [errors] has it, provided those it found there had it; this speaks of
    the runs that raise as well. *)
Definition keeps {A} (P : verror → Prop) (m : checker A) : Prop :=
  ∀ errors, Forall P errors → Forall P (m errors).2.

(** The loop over [enumerate(webhooks, 1)]. *)
Fixpoint check_webhooks (sub_id : json) (webhooks : list json) (w_idx : nat)
  : checker unit :=
  match webhooks with
  | [] => mret ()
  | webhook :: rest =>
      url ← lift (dict_get webhook "url" JNull);
      _ ← (if negb (truthy url)
           then report sub_id (MissingUrl w_idx)
           else mret ());
      check_webhooks sub_id rest (S w_idx)
  end.

(** The body of the loop over [enumerate(self.subscriptions, 1)]. *)
Definition check_subscription (idx : nat) (sub : json) : checker unit :=
  sub_id ← lift (dict_get sub "id" (JStr ("订阅" +:+ pretty idx)));
  name ← lift (dict_get sub "name" JNull);
  _ ← (if negb (truthy name) then report sub_id MissingName else mret ());
  keywords ← lift (dict_get sub "keywords" JNull);
  _ ← (if negb (truthy keywords)
       then report sub_id MissingKeywords
       else mret ());
  w ← lift (dict_get sub "webhooks" JNull);
  if negb (truthy w)
  then report sub_id MissingWebhooks
  else
    webhooks ← lift (dict_get sub "webhooks" (JList []));
    if negb (truthy webhooks)
    then report sub_id EmptyWebhooks
    else
      l ← lift (py_iter webhooks);
      check_webhooks sub_id l 1.

Fixpoint check_subscriptions (subs : list json) (idx : nat) : checker unit :=
  match subs with
  | [] => mret ()
  | sub :: rest =>
      _ ← check_subscription idx sub;
      check_subscriptions rest (S idx)
  end.

(** The run of the loop of [validate_config], from [errors = []]: how it
    ends and every message it has appended by then. *)
Definition collect_errors (self : manager) : result unit * list verror :=
  (subs ← lift (py_iter (subscriptions self));
   check_subscriptions subs 1) [].

(** Returns the boolean result together with the lines printed. *)
Definition validate_config (self : manager) : result (bool * list line) :=
  if negb (truthy (subscriptions self))
  then Ok (false, [WarnNoSubscriptions])
  else
    match collect_errors self with
    | (Raise e, _) => Raise e
    | (Ok _, []) => Ok (true, [ValidationPassed])
    | (Ok _, errors) => Ok (false, ValidationFailed :: (ErrorLine <$> errors))
    end.

(** ** export_config *)

(** Python's [Exception] class: every exception of the model but
    [KeyboardInterrupt], which derives from [BaseException] only. *)
Definition is_Exception (e : exn) : bool :=
  match e with
  | KeyboardInterrupt => false
  | _ => true
  end.

Section FileExport.

(** The outcome of [with open(output_path, 'w') as f: json.dump(data, f)],
    which belongs to the file system the manager runs on. *)
Variable write_json : string → json → result unit.

(** Returns the lines printed; [try ... except Exception as e] handles what
    the write raises. *)
Definition export_config (self : manager) (output_path : string)
  : result (list line) :=
  match write_json output_path (config_data self) with
  | Ok _ => Ok [Exported output_path]
  | Raise e => if is_Exception e then Ok [ExportFailed e] else Raise e
  end.

End FileExport.

(** ** get_webhooks, over an object store

    [get_webhooks] builds and returns a list object.  What it may and may
    not modify is a statement about objects and references, so this one
    method is modelled over a store of mutable objects: lists and dicts live
    at locations, values refer to them, and [valid_webhooks.append] is an
    update of the store.  A program is a function of the store; it is
    undefined ([None]) only where a reference dangles or a loop outruns its
    bound, which the properties below exclude. *)

Module Store.

Abbreviation loc := positive.

Inductive val : Type :=
  | VNone
  | VBool (b : bool)
  | VInt (z : Z)
  | VStr (s : string)
  | VRef (l : loc).

Inductive obj : Type :=
  | OList (items : list val)
  | ODict (fields : gmap string val).

Abbreviation heap := (gmap loc obj).

Definition prog (A : Type) : Type := heap → option (result A * heap).

#[export] Instance prog_ret : MRet prog := λ A a h, Some (Ok a, h).
#[export] Instance prog_bind : MBind prog :=
  λ A B f m h,
    match m h with
    | Some (Ok a, h') => f a h'
    | Some (Raise e, h') => Some (Raise e, h')
    | None => None
    end.

(** A new object, at a location the store does not use yet. *)
Definition alloc (o : obj) : prog val :=
  λ h, let l := fresh (dom h) in Some (Ok (VRef l), <[l := o]> h).

(** [v.get(k, dflt)]: the receiver is looked up first, then the default
    argument is evaluated. *)
Definition get (v : val) (k : string) (dflt : prog val) : prog val :=
  λ h,
    match v with
    | VRef l =>
        match h !! l with
        | Some (ODict d) => (x ← dflt; mret (default x (d !! k))) h
        | Some (OList _) => Some (Raise AttributeError, h)
        | None => None
        end
    | _ => Some (Raise AttributeError, h)
    end.

(** [bool(v)]. *)
Definition truthy (v : val) : prog bool :=
  λ h,
    match v with
    | VNone => Some (Ok false, h)
    | VBool b => Some (Ok b, h)
    | VInt z => Some (Ok (negb (z =? 0)), h)
    | VStr s => Some (Ok (negb (String.eqb s EmptyString)), h)
    | VRef l =>
        match h !! l with
        | Some (OList items) => Some (Ok (negb (Nat.eqb (length items) 0)), h)
        | Some (ODict d) => Some (Ok (negb (Nat.eqb (size d) 0)), h)
        | None => None
        end
    end.

(** [lst.append(x)]: the list object is updated in place. *)
Definition append (lst x : val) : prog unit :=
  λ h,
    match lst with
    | VRef l =>
        match h !! l with
        | Some (OList items) => Some (Ok (), <[l := OList (items ++ [x])]> h)
        | Some (ODict _) => Some (Raise AttributeError, h)
        | None => None
        end
    | _ => Some (Raise AttributeError, h)
    end.

(** A list iterator reads element [i] of the list as it is when asked. *)
Definition next_item (lst : loc) (i : nat) : prog (option val) :=
  λ h,
    match h !! lst with
    | Some (OList items) => Some (Ok (items !! i), h)
    | _ => None
    end.

Fixpoint for_list (bound : nat) (lst : loc) (i : nat) (body : val → prog unit)
  : prog unit :=
  match bound with
  | O => λ _, None
  | S bound' =>
      x ← next_item lst i;
      match x with
      | None => mret ()
      | Some x => _ ← body x; for_list bound' lst (S i) body
      end
  end.

(** Iteration over values that cannot change under the loop. *)
Fixpoint for_each (items : list val) (body : val → prog unit) : prog unit :=
  match items with
  | [] => mret ()
  | x :: rest => _ ← body x; for_each rest body
  end.

(** [for x in v: body]: a list is read as the loop goes, bounded by its
    length on entry (enough unless the body makes it grow); a string
    yields its characters and a dict its keys. *)
Definition for_in (v : val) (body : val → prog unit) : prog unit :=
  λ h,
    match v with
    | VStr s => for_each (VStr <$> chars s) body h
    | VRef l =>
        match h !! l with
        | Some (OList items) => for_list (S (length items)) l 0 body h
        | Some (ODict d) => for_each (VStr <$> (map_to_list d).*1) body h
        | None => None
        end
    | _ => Some (Raise TypeError, h)
    end.

(** The body of the loop over [webhooks]. *)
Definition webhook_step (valid_webhooks webhook : val) : prog unit :=
  url ← get webhook "url" (mret VNone);
  b ← truthy url;
  if negb b
  then (* the warning prints [webhook.get('name', '未命名')] *)
       _ ← get webhook "name" (mret (VStr "未命名")); mret ()
  else append valid_webhooks webhook.

Definition get_webhooks (subscription : val) : prog val :=
  webhooks ← get subscription "webhooks" (alloc (OList []));
  valid_webhooks ← alloc (OList []);
  _ ← for_in webhooks (webhook_step valid_webhooks);
  mret valid_webhooks.

(** *** Reading a store *)

Definition dict_at (h : heap) (v : val) : option (gmap string val) :=
  match v with
  | VRef l => match h !! l with Some (ODict d) => Some d | _ => None end
  | _ => None
  end.

Definition list_at (h : heap) (v : val) : option (list val) :=
  match v with
  | VRef l => match h !! l with Some (OList items) => Some items | _ => None end
  | _ => None
  end.

Definition truthy_in (h : heap) (v : val) : option bool :=
  match truthy v h with
  | Some (Ok b, _) => Some b
  | _ => None
  end.

(** The webhook entries a subscription dict stores. *)
Definition stored_webhooks (h : heap) (d : gmap string val)
  : option (list val) :=
  match d !! "webhooks" with
  | None => Some []
  | Some w => list_at h w
  end.

(** Whether a webhook entry has a [url] that is present and non-empty. *)
Definition has_url (h : heap) (webhook : val) : option bool :=
  d ← dict_at h webhook;
  truthy_in h (default VNone (d !! "url")).

End Store.

(** ASCII lowercasing, which is what [str.lower] does on strings whose cased
    letters are all ASCII; used to run the model on concrete inputs. *)
Definition ascii_lower_char (a : ascii) : ascii :=
  let n := nat_of_ascii a in
  if ((65 <=? n) && (n <=? 90))%nat then ascii_of_nat (n + 32) else a.

Fixpoint ascii_lower (s : string) : string :=
  match s with
  | EmptyString => EmptyString
  | String a s' => String (ascii_lower_char a) (ascii_lower s')
  end.

(** ** The data model of the specification

    The typed reading of the dynamic values: a keywords dict whose [normal],
    [required] and [excluded] entries, when present, are lists of strings
    and whose [limit], when present, is an integer; a news item that is a
    dict whose [title], when present, is a string.  Absent entries read as
    the defaults the code passes to [get]. *)

Record KeywordRule : Type := {
  normal : list string;
  required : list string;
  excluded : list string;
  limit : Z
}.

Definition as_str (v : json) : option string :=
  match v with JStr s => Some s | _ => None end.

Definition str_list_field (d : gmap string json) (k : string)
  : option (list string) :=
  match d !! k with
  | None => Some []
  | Some (JList l) => mapM as_str l
  | Some _ => None
  end.

Definition int_field (d : gmap string json) (k : string) (dflt : Z)
  : option Z :=
  match d !! k with
  | None => Some dflt
  | Some (JInt z) => Some z
  | Some _ => None
  end.

Definition rule_of_keywords (kw : gmap string json) : option KeywordRule :=
  n ← str_list_field kw "normal";
  r ← str_list_field kw "required";
  e ← str_list_field kw "excluded";
  l ← int_field kw "limit" 0;
  Some {| normal := n; required := r; excluded := e; limit := l |}.

Definition rule_of (sub : gmap string json) : option KeywordRule :=
  match sub !! "keywords" with
  | None => rule_of_keywords ∅
  | Some (JObj kw) => rule_of_keywords kw
  | Some _ => None
  end.

Definition title_of (news : json) : option string :=
  match news with
  | JObj d =>
      match d !! "title" with
      | None => Some EmptyString
      | Some (JStr s) => Some s
      | Some _ => None
      end
  | _ => None
  end.

(** ** The matcher as the specification words it (section 4.1) *)

Section MatcherSpec.

Variable lower : string → string.

(** A term occurs in a title, case-insensitively. *)
Definition occurs_in (title term : string) : bool :=
  contains (lower term) (lower title).

Definition spec_accepts (rule : KeywordRule) (title : string) : bool :=
  negb (existsb (occurs_in title) (excluded rule))
  && (match normal rule with
      | [] => true
      | _ => existsb (occurs_in title) (normal rule)
      end)
  && (match required rule with
      | [] => true
      | _ => forallb (occurs_in title) (required rule)
      end).

Definition spec_match (rule : KeywordRule) (items : list json) : list json :=
  let passing :=
    List.filter (λ n, spec_accepts rule (default EmptyString (title_of n)))
      items in
  if (0 <? limit rule) && (limit rule <? Z.of_nat (length passing))
  then take (Z.to_nat (limit rule)) passing
  else passing.

End MatcherSpec.

(** ** The typed reading of subscriptions and of the store *)

Definition as_dict (v : json) : option (gmap string json) :=
  match v with JObj d => Some d | _ => None end.

(** A dict-valued entry, absent entries reading as the empty dict. *)
Definition dict_field (d : gmap string json) (k : string)
  : option (gmap string json) :=
  match d !! k with
  | None => Some ∅
  | Some v => as_dict v
  end.

Definition bool_field (d : gmap string json) (k : string) (dflt : bool)
  : option bool :=
  match d !! k with
  | None => Some dflt
  | Some (JBool b) => Some b
  | Some _ => None
  end.

(** The webhook entries of a subscription: a list of dicts when present. *)
Definition webhooks_of (sub : gmap string json)
  : option (list (gmap string json)) :=
  match sub !! "webhooks" with
  | None => Some []
  | Some (JList l) => mapM as_dict l
  | Some _ => None
  end.

(** The subscriptions of a manager: a list of dicts with well-typed
    webhooks. *)
Definition subscriptions_of (self : manager)
  : option (list (gmap string json)) :=
  match subscriptions self with
  | JList l =>
      subs ← mapM as_dict l;
      _ ← mapM webhooks_of subs;
      Some subs
  | _ => None
  end.

(** ** Validation as the specification words it (section 4.2) *)

(** An entry is missing or empty. *)
Definition missing (d : gmap string json) (k : string) : bool :=
  negb (truthy (default JNull (d !! k))).

Definition has_violation (sub : gmap string json) : bool :=
  missing sub "name"
  || missing sub "keywords"
  || missing sub "webhooks"
  || existsb (λ w, missing w "url") (default [] (webhooks_of sub)).

(** The name a message gives the subscription. *)
Definition sub_label (idx : nat) (sub : gmap string json) : json :=
  default (JStr ("订阅" +:+ pretty idx)) (sub !! "id").

Fixpoint url_violations (label : json) (webhooks : list (gmap string json))
    (w_idx : nat) : list verror :=
  match webhooks with
  | [] => []
  | w :: rest =>
      (if missing w "url"
       then [{| err_sub := label; err_what := MissingUrl w_idx |}]
       else [])
      ++ url_violations label rest (S w_idx)
  end.

(** One message per violation of a subscription. *)
Definition violations (idx : nat) (sub : gmap string json) : list verror :=
  let label := sub_label idx sub in
  (if missing sub "name"
   then [{| err_sub := label; err_what := MissingName |}] else [])
  ++ (if missing sub "keywords"
      then [{| err_sub := label; err_what := MissingKeywords |}] else [])
  ++ (if missing sub "webhooks"
      then [{| err_sub := label; err_what := MissingWebhooks |}]
      else url_violations label (default [] (webhooks_of sub)) 1).

Fixpoint all_violations (subs : list (gmap string json)) (idx : nat)
  : list verror :=
  match subs with
  | [] => []
  | sub :: rest => violations idx sub ++ all_violations rest (S idx)
  end.

(** A message about the webhooks of a subscription. *)
Definition about_webhooks (e : verror) : bool :=
  match err_what e with
  | MissingWebhooks | EmptyWebhooks | MissingUrl _ => true
  | _ => false
  end.

(** ** Concrete data *)

Definition news_item (title : string) : json :=
  JObj {[ "title" := JStr title ]}.

Definition keywords_dict (n r e : list string) (lim : Z) : json :=
  JObj (<["normal" := JList (JStr <$> n)]>
       (<["required" := JList (JStr <$> r)]>
       (<["excluded" := JList (JStr <$> e)]>
       (<["limit" := JInt lim]> ∅)))).

(** The two rules of the specification's examples. *)
Definition sub_ai : gmap string json :=
  {[ "keywords" := keywords_dict ["AI"] [] ["广告"] 0 ]}.

Definition sub_chip : gmap string json :=
  {[ "keywords" := keywords_dict [] ["芯片"; "突破"] [] 1 ]}.

Definition news_ai : list json :=
  [news_item "AI芯片突破"; news_item "AI广告新玩法"; news_item "芯片降价"].

Definition news_chip : list json :=
  [news_item "AI芯片突破"; news_item "光刻机突破"; news_item "芯片短缺"].

Definition rule_ai : KeywordRule :=
  {| normal := ["AI"]; required := []; excluded := ["广告"]; limit := 0 |}.

Definition rule_none : KeywordRule :=
  {| normal := []; required := []; excluded := []; limit := 0 |}.

(** A subscription with an AI-search policy and two webhooks, the second
    without a url. *)
Definition ai_policy : gmap string json :=
  <["enabled" := JBool true]>
  (<["trigger_threshold" := JInt 2]>
  (<["search_keywords" := JList [JStr "GPU"]]> ∅)).

Definition webhook_entry (name url : string) : json :=
  JObj (<["type" := JStr "wework"]>
       (<["url" := JStr url]>
       (<["name" := JStr name]> ∅))).

Definition sub_full : gmap string json :=
  <["id" := JStr "sub_example_001"]>
  (<["name" := JStr "示例订阅"]>
  (<["keywords" := keywords_dict ["AI"] [] ["广告"] 0]>
  (<["webhooks" := JList [webhook_entry "a" "https://example.org/hook"]]>
  (<["ai_search" := JObj ai_policy]> ∅)))).

(** A subscription with neither keywords nor webhooks. *)
Definition sub_bare : gmap string json :=
  <["name" := JStr "bare"]> ∅.

(** A subscription whose webhooks list is empty. *)
Definition sub_no_hooks : gmap string json :=
  <["name" := JStr "quiet"]>
  (<["keywords" := keywords_dict ["AI"] [] [] 0]>
  (<["webhooks" := JList []]> ∅)).

Definition manager_of (subs : list (gmap string json)) : manager :=
  {| config_path := "config/subscriptions.json";
     config_data :=
       JObj (<["version" := JStr "1.0"]>
            (<["subscriptions" := JList (JObj <$> subs)]> ∅));
     subscriptions := JList (JObj <$> subs);
     global_settings := JObj ∅ |}.

(** A file system on which every write fails with [OSError] (of which
    [IOError] is an alias). *)
Definition failing_write : string → json → result unit :=
  λ _ _, Raise OSError.

(** A store holding one subscription (at 1) with its webhooks list (at 2)
    and four webhook entries (3 to 6), two of them without a usable url. *)
Definition example_heap : gmap positive Store.obj :=
  <[1%positive := Store.ODict (<["name" := Store.VStr "s"]>
                              (<["webhooks" := Store.VRef 2]> ∅))]>
  (<[2%positive := Store.OList [Store.VRef 3; Store.VRef 4;
                                Store.VRef 5; Store.VRef 6]]>
  (<[3%positive := Store.ODict {[ "url" := Store.VStr "https://a" ]}]>
  (<[4%positive := Store.ODict {[ "url" := Store.VStr "" ]}]>
  (<[5%positive := Store.ODict {[ "name" := Store.VStr "x" ]}]>
  (<[6%positive := Store.ODict {[ "url" := Store.VStr "https://b" ]}]> ∅))))).

(** * The rest of the manager *)

(** [len(v)]: lists, strings and dicts have a length. *)
Definition py_len (v : json) : result nat :=
  match v with
  | JList l => Ok (length l)
  | JStr s => Ok (length (chars s))
  | JObj d => Ok (size d)
  | _ => Raise TypeError
  end.

(** [v == s] for a string [s]: only an equal string is equal to a string. *)
Definition py_eq_str (v : json) (s : string) : bool :=
  match v with
  | JStr s' => String.eqb s' s
  | _ => false
  end.

(** ** has_subscriptions, get_active_subscriptions, get_subscription_by_id,
       get_global_settings *)

Definition has_subscriptions (self : manager) : result bool :=
  n ← py_len (subscriptions self);
  Ok (0 <? n)%nat.

(** The comprehension [[sub for sub in ... if sub.get("enabled", True)]]. *)
Fixpoint active_loop (subs active : list json) : result (list json) :=
  match subs with
  | [] => Ok active
  | sub :: rest =>
      enabled ← dict_get sub "enabled" (JBool true);
      active_loop rest (if truthy enabled then active ++ [sub] else active)
  end.

Definition get_active_subscriptions (self : manager) : result (list json) :=
  subs ← py_iter (subscriptions self);
  active ← active_loop subs [];
  (* the report prints [len(active)] and [len(self.subscriptions)] *)
  _ ← py_len (subscriptions self);
  Ok active.

(** The loop of [get_subscription_by_id]; [None] is Python's [None]. *)
Fixpoint find_by_id (subs : list json) (sub_id : string)
  : result (option json) :=
  match subs with
  | [] => Ok None
  | sub :: rest =>
      i ← dict_get sub "id" JNull;
      if py_eq_str i sub_id then Ok (Some sub) else find_by_id rest sub_id
  end.

Definition get_subscription_by_id (self : manager) (sub_id : string)
  : result (option json) :=
  subs ← py_iter (subscriptions self);
  find_by_id subs sub_id.

Definition get_global_settings (self : manager) : json :=
  global_settings self.

(** ** get_webhooks, on values

    The same method read on values: what the returned list holds, without
    the identity of the objects.  [get_webhooks_refines] relates it to
    [Store.get_webhooks]. *)

Fixpoint webhooks_loop (webhooks valid_webhooks : list json)
  : result (list json) :=
  match webhooks with
  | [] => Ok valid_webhooks
  | webhook :: rest =>
      url ← dict_get webhook "url" JNull;
      if negb (truthy url)
      then (* the warning prints [webhook.get('name', '未命名')] *)
           _ ← dict_get webhook "name" (JStr "未命名");
           webhooks_loop rest valid_webhooks
      else webhooks_loop rest (valid_webhooks ++ [webhook])
  end.

Definition get_webhooks (subscription : json) : result (list json) :=
  webhooks ← dict_get subscription "webhooks" (JList []);
  l ← py_iter webhooks;
  webhooks_loop l [].

(** ** get_statistics *)

(** The loop over [self.subscriptions], with its two counters. *)
Fixpoint stats_loop (subs : list json) (webhook_count ai_enabled_count : nat)
  : result (nat * nat) :=
  match subs with
  | [] => Ok (webhook_count, ai_enabled_count)
  | sub :: rest =>
      webhooks ← dict_get sub "webhooks" (JList []);
      n ← py_len webhooks;
      ai_search ← dict_get sub "ai_search" (JObj ∅);
      enabled ← dict_get ai_search "enabled" (JBool false);
      stats_loop rest (webhook_count + n)
        (if truthy enabled then S ai_enabled_count else ai_enabled_count)
  end.

Definition get_statistics (self : manager) : result json :=
  total ← py_len (subscriptions self);
  active ← get_active_subscriptions self;
  subs ← py_iter (subscriptions self);
  counts ← stats_loop subs 0 0;
  version ← dict_get (config_data self) "version" (JStr "未知");
  Ok (JObj (<["total_subscriptions" := JInt (Z.of_nat total)]>
           (<["active_subscriptions" := JInt (Z.of_nat (length active))]>
           (<["total_webhooks" := JInt (Z.of_nat counts.1)]>
           (<["ai_enabled_count" := JInt (Z.of_nat counts.2)]>
           (<["config_version" := version]> ∅)))))).

(** ** __init__ and _load_config *)

(** What reading the configuration file gives: the parsed document, a
    [json.JSONDecodeError], or another exception of [open] and [json.load]. *)
Inductive read_outcome : Type :=
  | ReadOk (data : json)
  | ReadBadJson
  | ReadRaise (e : exn).

Inductive load_error : Type :=
  | JSONDecodeError
  | LoadError (e : exn).

(** The constructor returns a manager or raises. *)
Inductive init_outcome : Type :=
  | Constructed (self : manager)
  | InitRaised (err : load_error).

Section FileLoad.

(** [os.path.exists] and [with open(path) as f: json.load(f)], which belong
    to the file system the manager runs on. *)
Variable path_exists : string → bool.
Variable read_json : string → read_outcome.

(** Both [except] clauses print and re-raise, and what they do not catch
    propagates as well: every exception of the [try] block leaves the
    method. *)
Definition _load_config (self : manager) : init_outcome :=
  if negb (path_exists (config_path self))
  then Constructed self
  else
    match read_json (config_path self) with
    | ReadBadJson => InitRaised JSONDecodeError
    | ReadRaise e => InitRaised (LoadError e)
    | ReadOk data =>
        match
          subs ← dict_get data "subscriptions" (JList []);
          settings ← dict_get data "global_settings" (JObj ∅);
          (* the report prints the version and [len(self.subscriptions)] *)
          _ ← dict_get data "version" (JStr "未知");
          _ ← py_len subs;
          Ok (subs, settings)
        with
        | Ok (subs, settings) =>
            Constructed {| config_path := config_path self;
                           config_data := data;
                           subscriptions := subs;
                           global_settings := settings |}
        | Raise e => InitRaised (LoadError e)
        end
    end.

Definition __init__ (config_path : string) : init_outcome :=
  _load_config {| config_path := config_path;
                  config_data := JObj ∅;
                  subscriptions := JList [];
                  global_settings := JObj ∅ |}.

End FileLoad.

(** ** The sample configuration of create_sample_config *)

Section Sample.

(** The [weight] table of the sample holds floating-point numbers, which the
    manager never reads; it is kept as an opaque value. *)
Variable weight : json.

Definition sample_config : json :=
  JObj (<["version" := JStr "1.0"]>
       (<["subscriptions" :=
            JList [JObj
              (<["id" := JStr "sub_example_001"]>
              (<["name" := JStr "示例订阅"]>
              (<["enabled" := JBool true]>
              (<["keywords" :=
                   JObj (<["normal" := JList [JStr "关键词1"; JStr "关键词2"]]>
                        (<["required" := JList []]>
                        (<["excluded" := JList [JStr "广告"]]>
                        (<["limit" := JInt 10]> ∅))))]>
              (<["webhooks" :=
                   JList [JObj
                     (<["type" := JStr "wework"]>
                     (<["url" := JStr
 "https://qyapi.weixin.qq.com/cgi-bin/webhook/send?key=your-key"]>
                     (<["name" := JStr "测试群组"]> ∅)))]]>
              (<["ai_search" :=
                   JObj (<["enabled" := JBool false]>
                        (<["trigger_threshold" := JInt 3]> ∅))]>
              (<["schedule" :=
                   JObj (<["enabled" := JBool true]>
                        (<["cron" := JStr "0 * * * *"]> ∅))]> ∅)))))))]]>
       (<["global_settings" :=
            JObj (<["report_mode" := JStr "incremental"]>
                 (<["platforms" :=
                      JList [JStr "zhihu"; JStr "weibo"; JStr "douyin"]]>
                 (<["weight" := weight]> ∅)))]> ∅))).

End Sample.

(** ** Counting

    A checker only ever appends to [errors]. *)
Definition grows {A} (m : checker A) : Prop :=
  ∀ errors, (length errors ≤ length (m errors).2)%nat.

(** The counts of [get_statistics], on subscription dicts. *)
Definition is_active (sub : gmap string json) : bool :=
  truthy (default (JBool true) (sub !! "enabled")).

Definition ai_on (sub : gmap string json) : bool :=
  match dict_field sub "ai_search" with
  | Some ai => truthy (default (JBool false) (ai !! "enabled"))
  | None => false
  end.

Definition stored_webhook_count (sub : gmap string json) : nat :=
  length (default [] (webhooks_of sub)).

(** How many webhooks [get_webhooks] returns for a subscription. *)
Definition usable_webhook_count (sub : gmap string json) : nat :=
  match get_webhooks (JObj sub) with
  | Ok l => length l
  | Raise _ => 0
  end.

(** ** Values of the store and JSON values

    A value of the store stands for a JSON value: immediate values for
    themselves, a reference for the list or dict whose entries the object
    at that location stands for. *)
Inductive repr (h : gmap positive Store.obj) : Store.val → json → Prop :=
  | repr_none : repr h Store.VNone JNull
  | repr_bool b : repr h (Store.VBool b) (JBool b)
  | repr_int z : repr h (Store.VInt z) (JInt z)
  | repr_str s : repr h (Store.VStr s) (JStr s)
  | repr_list l items js :
      h !! l = Some (Store.OList items) →
      Forall2 (repr h) items js →
      repr h (Store.VRef l) (JList js)
  | repr_dict l d dj :
      h !! l = Some (Store.ODict d) →
      (∀ k, option_Forall2 (repr h) (d !! k) (dj !! k)) →
      repr h (Store.VRef l) (JObj dj).

(** ** More concrete data *)

Definition rule_chip : KeywordRule :=
  {| normal := []; required := ["芯片"; "突破"]; excluded := []; limit := 1 |}.

(** A limit given as a string. *)
Definition kw_bad_limit : gmap string json :=
  <["normal" := JList [JStr "AI"]]> (<["limit" := JStr "10"]> ∅).

Definition sub_bad_limit : gmap string json :=
  <["keywords" := JObj kw_bad_limit]> ∅.

(** An empty string among the excluded terms. *)
Definition sub_veto_all : gmap string json :=
  <["keywords" := keywords_dict ["AI"] [] [""] 0]> ∅.

Definition rule_veto_all : KeywordRule :=
  {| normal := ["AI"]; required := []; excluded := [""]; limit := 0 |}.

(** A limit of 1 under a trigger threshold of 3. *)
Definition ai_eager : gmap string json :=
  <["enabled" := JBool true]> (<["trigger_threshold" := JInt 3]> ∅).

Definition sub_capped : gmap string json :=
  <["keywords" := keywords_dict [] ["芯片"; "突破"] [] 1]>
  (<["ai_search" := JObj ai_eager]> ∅).

(** A subscription whose webhooks entry is [null]. *)
Definition sub_null_hooks : gmap string json :=
  <["name" := JStr "void"]> (<["webhooks" := JNull]> ∅).

(** A manager over any subscriptions value. *)
Definition manager_raw (subs : json) : manager :=
  {| config_path := "config/subscriptions.json";
     config_data := JObj (<["subscriptions" := subs]> ∅);
     subscriptions := subs;
     global_settings := JObj ∅ |}.

(** A file system with one configuration file, and one with none. *)
Definition disk_exists (p : string) : bool :=
  String.eqb p "config/subscriptions.json".

Definition disk_read (doc : json) : string → read_outcome :=
  λ _, ReadOk doc.

Definition no_file : string → bool := λ _, false.

Definition any_file : string → bool := λ _, true.


(** The JSON values the entries of [example_heap] stand for. *)
Definition example_webhooks : list json :=
  [JObj {[ "url" := JStr "https://a" ]};
   JObj {[ "url" := JStr "" ]};
   JObj {[ "name" := JStr "x" ]};
   JObj {[ "url" := JStr "https://b" ]}].

Definition example_subscription : json :=
  JObj (<["name" := JStr "s"]>
       (<["webhooks" := JList example_webhooks]> ∅)).

(** The document behind [manager_of], three subscriptions for the
    statistics, and the manager of an absent file. *)
Definition doc_of (subs : list (gmap string json)) : gmap string json :=
  <["version" := JStr "1.0"]>
  (<["subscriptions" := JList (JObj <$> subs)]> ∅).

Definition three_subs : list (gmap string json) :=
  [sub_full; sub_bare; sub_no_hooks].


(** * Properties *)

(** ** The result monad *)

Lemma bind_Ok {A B} (f : A → result B) (a : A) : (Ok a ≫= f) = f a.
Proof. reflexivity. Qed.

Lemma bind_Raise {A B} (f : A → result B) (e : exn) :
  (Raise e ≫= f) = Raise e.
Proof. reflexivity. Qed.

Lemma dict_get_obj (d : gmap string json) (k : string) (dflt : json) :
  dict_get (JObj d) k dflt = Ok (default dflt (d !! k)).
Proof. reflexivity. Qed.

(** Runs the part of a monadic program whose steps are known to return. *)
Ltac run :=
  repeat (progress (rewrite ?dict_get_obj, ?bind_Ok, ?bind_Raise; cbv beta)).

(** ** Examples of the specification (section 8) *)

Example match_example_ai :
  match_news_for_subscription ascii_lower (JObj sub_ai) news_ai
  = Ok [news_item "AI芯片突破"].
Proof. vm_compute. reflexivity. Qed.

Example match_example_chip :
  match_news_for_subscription ascii_lower (JObj sub_chip) news_chip
  = Ok [news_item "AI芯片突破"].
Proof. vm_compute. reflexivity. Qed.

(** ** The typed reading of well-formed values *)

Lemma mapM_as_str (l : list json) (strs : list string) :
  mapM as_str l = Some strs → l = JStr <$> strs.
Proof.
  rewrite mapM_Some. induction 1 as [|v s l strs Hv _ IH]; [done|].
  destruct v; simplify_eq/=. by f_equal.
Qed.

Lemma str_list_field_get (kw : gmap string json) (k : string)
    (strs : list string) :
  str_list_field kw k = Some strs →
  default (JList []) (kw !! k) = JList (JStr <$> strs).
Proof.
  unfold str_list_field. destruct (kw !! k) as [[]|]; simpl; try done.
  - intros H%mapM_as_str. by subst.
  - by intros [= <-].
Qed.

Lemma int_field_get (kw : gmap string json) (k : string) (dflt z : Z) :
  int_field kw k dflt = Some z → default (JInt dflt) (kw !! k) = JInt z.
Proof.
  unfold int_field. destruct (kw !! k) as [[]|]; simpl; congruence.
Qed.

Lemma rule_of_keywords_get (kw : gmap string json) (rule : KeywordRule) :
  rule_of_keywords kw = Some rule →
  default (JList []) (kw !! "normal") = JList (JStr <$> normal rule)
  ∧ default (JList []) (kw !! "required") = JList (JStr <$> required rule)
  ∧ default (JList []) (kw !! "excluded") = JList (JStr <$> excluded rule)
  ∧ default (JInt 0) (kw !! "limit") = JInt (limit rule).
Proof.
  unfold rule_of_keywords. intros H.
  destruct (str_list_field kw "normal") as [n|] eqn:Hn; [|done].
  destruct (str_list_field kw "required") as [r|] eqn:Hr; [|done].
  destruct (str_list_field kw "excluded") as [e|] eqn:He; [|done].
  destruct (int_field kw "limit" 0) as [l|] eqn:Hl; [|done].
  simpl in H. injection H as <-. simpl.
  repeat split; auto using str_list_field_get, int_field_get.
Qed.

Lemma rule_of_get (sub : gmap string json) (rule : KeywordRule) :
  rule_of sub = Some rule →
  ∃ kw, default (JObj ∅) (sub !! "keywords") = JObj kw
        ∧ rule_of_keywords kw = Some rule.
Proof.
  unfold rule_of. destruct (sub !! "keywords") as [[]|]; simpl; try done; eauto.
Qed.

Lemma title_of_get (news : json) (t : string) :
  title_of news = Some t → dict_get news "title" (JStr "") = Ok (JStr t).
Proof.
  destruct news as [| | | | |d]; simpl; try done.
  destruct (d !! "title") as [[]|]; simpl; congruence.
Qed.

(** ** The matcher *)

Section MatcherProperties.

Variable lower : string → string.

Lemma any_in_title_strs (strs : list string) (title : string) :
  any_in_title lower (JList (JStr <$> strs)) title
  = Ok (existsb (λ k, contains (lower k) title) strs).
Proof.
  unfold any_in_title. simpl. rewrite ?bind_Ok.
  induction strs as [|s strs IH]; simpl; [done|].
  rewrite ?bind_Ok. by destruct (contains (lower s) title).
Qed.

Lemma all_in_title_strs (strs : list string) (title : string) :
  all_in_title lower (JList (JStr <$> strs)) title
  = Ok (forallb (λ k, contains (lower k) title) strs).
Proof.
  unfold all_in_title. simpl. rewrite ?bind_Ok.
  induction strs as [|s strs IH]; simpl; [done|].
  rewrite ?bind_Ok. by destruct (contains (lower s) title).
Qed.

Lemma rule1_rejects_strs (strs : list string) (t : string) :
  rule1_rejects lower (JList (JStr <$> strs)) (lower t)
  = Ok (existsb (occurs_in lower t) strs).
Proof.
  unfold rule1_rejects. destruct strs as [|s strs]; [done|].
  change (truthy _) with true. cbv iota. apply any_in_title_strs.
Qed.

Lemma rule2_rejects_strs (strs : list string) (t : string) :
  rule2_rejects lower (JList (JStr <$> strs)) (lower t)
  = Ok (negb (match strs with
              | [] => true
              | _ => existsb (occurs_in lower t) strs
              end)).
Proof.
  unfold rule2_rejects. destruct strs as [|s strs]; [done|].
  change (truthy _) with true. cbv iota. by rewrite any_in_title_strs.
Qed.

Lemma rule3_rejects_strs (strs : list string) (t : string) :
  rule3_rejects lower (JList (JStr <$> strs)) (lower t)
  = Ok (negb (match strs with
              | [] => true
              | _ => forallb (occurs_in lower t) strs
              end)).
Proof.
  unfold rule3_rejects. destruct strs as [|s strs]; [done|].
  change (truthy _) with true. cbv iota. by rewrite all_in_title_strs.
Qed.

(** On well-typed values the loop body decides what the specification's
    three rules decide. *)
Lemma news_passes_spec (rule : KeywordRule) (news : json) (t : string) :
  title_of news = Some t →
  news_passes lower (JList (JStr <$> normal rule))
    (JList (JStr <$> required rule)) (JList (JStr <$> excluded rule)) news
  = Ok (spec_accepts lower rule t).
Proof.
  intros Ht. unfold news_passes, spec_accepts.
  rewrite (title_of_get _ _ Ht), ?bind_Ok. simpl str_lower. rewrite ?bind_Ok.
  rewrite rule1_rejects_strs, ?bind_Ok.
  destruct (existsb _ (excluded rule)); simpl; [done|].
  rewrite rule2_rejects_strs, ?bind_Ok.
  destruct (match normal rule with [] => true | _ => _ end); simpl; [|done].
  by rewrite rule3_rejects_strs, ?bind_Ok, negb_involutive.
Qed.

Lemma match_loop_spec (rule : KeywordRule) (news_data matched : list json) :
  Forall (λ n, is_Some (title_of n)) news_data →
  match_loop lower (JList (JStr <$> normal rule))
    (JList (JStr <$> required rule)) (JList (JStr <$> excluded rule))
    news_data matched
  = Ok (matched
        ++ List.filter
             (λ n, spec_accepts lower rule (default EmptyString (title_of n)))
             news_data).
Proof.
  intros Hall. revert matched.
  induction Hall as [|n news [t Ht] _ IH]; intros matched; simpl.
  { by rewrite app_nil_r. }
  rewrite (news_passes_spec _ _ _ Ht), ?bind_Ok, IH, Ht. simpl.
  destruct (spec_accepts lower rule t); [|done].
  by rewrite <- app_assoc.
Qed.

(** The matcher returns, and returns what the specification describes, on
    every well-typed subscription and news list. *)
Lemma match_news_run (sub : gmap string json) (rule : KeywordRule)
    (news_data : list json) :
  rule_of sub = Some rule →
  Forall (λ n, is_Some (title_of n)) news_data →
  match_news_for_subscription lower (JObj sub) news_data
  = Ok (spec_match lower rule news_data).
Proof.
  intros Hrule Hnews.
  destruct (rule_of_get _ _ Hrule) as (kw & Hkw & Hr).
  destruct (rule_of_keywords_get _ _ Hr) as (Hn & Hq & He & Hl).
  unfold match_news_for_subscription, spec_match.
  run. rewrite Hkw. run. rewrite Hn, Hq, He, Hl. simpl as_number. run.
  rewrite (match_loop_spec rule news_data [] Hnews). run. simpl.
  by destruct (_ && _).
Qed.

Lemma spec_match_incl (rule : KeywordRule) (news_data : list json)
    (item : json) :
  In item (spec_match lower rule news_data) →
  In item news_data
  ∧ spec_accepts lower rule (default EmptyString (title_of item)) = true.
Proof.
  unfold spec_match. intros Hin.
  apply (filter_In (λ n, spec_accepts lower rule
                           (default EmptyString (title_of n)))).
  destruct (_ && _); [|done].
  apply list_elem_of_In. apply list_elem_of_In in Hin.
  by eapply subseteq_take.
Qed.

Lemma spec_accepts_excluded (rule : KeywordRule) (t ex : string) :
  In ex (excluded rule) → occurs_in lower t ex = true →
  spec_accepts lower rule t = false.
Proof.
  intros Hin Hocc. unfold spec_accepts.
  assert (existsb (occurs_in lower t) (excluded rule) = true) as ->
    by (apply existsb_exists; eauto).
  done.
Qed.

Lemma spec_accepts_empty (rule : KeywordRule) (t : string) :
  normal rule = [] → required rule = [] → excluded rule = [] →
  spec_accepts lower rule t = true.
Proof. unfold spec_accepts. by intros -> -> ->. Qed.

Lemma filter_all {A} (f : A → bool) (l : list A) :
  (∀ x, f x = true) → List.filter f l = l.
Proof.
  intros Hf. induction l as [|x l IH]; simpl; [done|]. by rewrite Hf, IH.
Qed.

Lemma filter_sublist {A} (f : A → bool) (l : list A) :
  List.filter f l `sublist_of` l.
Proof.
  induction l as [|x l IH]; simpl; [constructor|].
  destruct (f x); by constructor.
Qed.

Lemma spec_match_sublist (rule : KeywordRule) (news_data : list json) :
  spec_match lower rule news_data `sublist_of` news_data.
Proof.
  unfold spec_match. destruct (_ && _); [|apply filter_sublist].
  etrans; [apply sublist_take|apply filter_sublist].
Qed.

Lemma rule_of_no_keywords (sub : gmap string json) :
  sub !! "keywords" = None ∨ sub !! "keywords" = Some (JObj ∅) →
  rule_of sub
  = Some {| normal := []; required := []; excluded := []; limit := 0 |}.
Proof. unfold rule_of. by intros [-> | ->]. Qed.

(** C1. On a subscription whose keywords are well typed (a rule) and news
    items whose titles are strings, [match_news_for_subscription] returns
    exactly the items whose lowercased title passes the three rules of the
    specification (the terms lowercased too), cut to the first [limit] items
    when [limit > 0] and more than [limit] items pass; the result keeps the
    order of the input. *)
Theorem match_news_for_subscription_spec (sub : gmap string json)
    (rule : KeywordRule) (news_data : list json) :
  rule_of sub = Some rule →
  Forall (λ n, is_Some (title_of n)) news_data →
  ∃ matched,
    match_news_for_subscription lower (JObj sub) news_data = Ok matched
    ∧ matched = spec_match lower rule news_data
    ∧ matched `sublist_of` news_data.
Proof.
  intros Hrule Hnews. exists (spec_match lower rule news_data).
  split; [by apply match_news_run|]. split; [done|].
  apply spec_match_sublist.
Qed.

(** C2. An item whose title contains, case-insensitively, a term of the
    rule's [excluded] list is absent from the result of
    [match_news_for_subscription], whatever the [normal] and [required]
    lists hold. *)
Theorem excluded_term_vetoes (sub : gmap string json) (rule : KeywordRule)
    (news_data : list json) (item : json) (t ex : string) :
  rule_of sub = Some rule →
  Forall (λ n, is_Some (title_of n)) news_data →
  title_of item = Some t →
  In ex (excluded rule) →
  occurs_in lower t ex = true →
  ∃ matched,
    match_news_for_subscription lower (JObj sub) news_data = Ok matched
    ∧ ¬ In item matched.
Proof.
  intros Hrule Hnews Ht Hex Hocc.
  eexists. split; [by apply match_news_run|].
  intros [_ Hacc]%spec_match_incl. rewrite Ht in Hacc. simpl in Hacc.
  by rewrite (spec_accepts_excluded rule t ex) in Hacc.
Qed.

(** C7. A falsy (empty) [normal] makes rule 2 reject nothing and a falsy
    (empty) [required] makes rule 3 reject nothing; with [normal],
    [required] and [excluded] all empty every item is accepted, so the result
    is the input, up to the cut at [limit]. *)
Theorem empty_rules_reject_nothing :
  (∀ normal_kws title,
     truthy normal_kws = false →
     rule2_rejects lower normal_kws title = Ok false)
  ∧ (∀ required_kws title,
       truthy required_kws = false →
       rule3_rejects lower required_kws title = Ok false)
  ∧ (∀ news,
       is_Some (title_of news) →
       news_passes lower (JList []) (JList []) (JList []) news = Ok true)
  ∧ (∀ sub rule news_data,
       rule_of sub = Some rule →
       normal rule = [] → required rule = [] → excluded rule = [] →
       Forall (λ n, is_Some (title_of n)) news_data →
       match_news_for_subscription lower (JObj sub) news_data
       = Ok (if (0 <? limit rule)
                && (limit rule <? Z.of_nat (length news_data))
             then take (Z.to_nat (limit rule)) news_data
             else news_data)).
Proof.
  repeat split.
  - intros normal_kws title H. unfold rule2_rejects. by rewrite H.
  - intros required_kws title H. unfold rule3_rejects. by rewrite H.
  - intros news [t Ht]. unfold news_passes.
    rewrite (title_of_get _ _ Ht). by run.
  - intros sub rule news_data Hrule Hn Hr He Hnews.
    rewrite (match_news_run _ _ _ Hrule Hnews). unfold spec_match.
    rewrite filter_all; [done|].
    intros n. by apply spec_accepts_empty.
Qed.

(** C10. For a subscription dict with no [keywords] entry, or with an empty
    [keywords] dict, [match_news_for_subscription] returns the whole input
    list unchanged. *)
Theorem match_without_keywords (sub : gmap string json)
    (news_data : list json) :
  sub !! "keywords" = None ∨ sub !! "keywords" = Some (JObj ∅) →
  Forall (λ n, is_Some (title_of n)) news_data →
  match_news_for_subscription lower (JObj sub) news_data = Ok news_data.
Proof.
  intros Hkw Hnews.
  rewrite (match_news_run _ _ _ (rule_of_no_keywords _ Hkw) Hnews).
  unfold spec_match. rewrite filter_all; [done|].
  intros n. by apply spec_accepts_empty.
Qed.

End MatcherProperties.

(** ** The AI-search policy *)

Lemma dict_field_get (d : gmap string json) (k : string)
    (x : gmap string json) :
  dict_field d k = Some x → default (JObj ∅) (d !! k) = JObj x.
Proof.
  unfold dict_field. destruct (d !! k) as [[]|]; simpl; congruence.
Qed.

Lemma bool_field_get (d : gmap string json) (k : string) (dflt b : bool) :
  bool_field d k dflt = Some b → default (JBool dflt) (d !! k) = JBool b.
Proof.
  unfold bool_field. destruct (d !! k) as [[]|]; simpl; congruence.
Qed.

Lemma should_enable_ai_search_run (sub ai : gmap string json)
    (enabled : bool) (threshold matched_count : Z) :
  dict_field sub "ai_search" = Some ai →
  bool_field ai "enabled" false = Some enabled →
  int_field ai "trigger_threshold" 3 = Some threshold →
  should_enable_ai_search (JObj sub) matched_count
  = Ok (enabled && (matched_count <? threshold)).
Proof.
  intros Hai He Ht. unfold should_enable_ai_search. run.
  rewrite (dict_field_get _ _ _ Hai). run.
  rewrite (bool_field_get _ _ _ _ He). simpl truthy.
  destruct enabled; simpl; [|done].
  rewrite (int_field_get _ _ _ _ Ht). simpl as_number. run.
  by destruct (matched_count <? threshold).
Qed.

(** C3. [should_enable_ai_search] returns true iff [ai_search.enabled] is
    true and [matched_count < trigger_threshold] (3 when absent); it returns
    false for every count when [enabled] is false, whatever the threshold
    entry holds, and false when the count equals the threshold. *)
Theorem should_enable_ai_search_spec (sub ai : gmap string json)
    (enabled : bool) (threshold matched_count : Z) :
  dict_field sub "ai_search" = Some ai →
  bool_field ai "enabled" false = Some enabled →
  (int_field ai "trigger_threshold" 3 = Some threshold →
     should_enable_ai_search (JObj sub) matched_count
     = Ok (enabled && (matched_count <? threshold))
     ∧ (should_enable_ai_search (JObj sub) matched_count = Ok true
        ↔ enabled = true ∧ matched_count < threshold)
     ∧ (matched_count = threshold →
        should_enable_ai_search (JObj sub) matched_count = Ok false))
  ∧ (enabled = false →
     should_enable_ai_search (JObj sub) matched_count = Ok false).
Proof.
  intros Hai He. split.
  - intros Ht.
    rewrite (should_enable_ai_search_run _ _ _ _ _ Hai He Ht).
    split; [done|]. split.
    + rewrite <- Z.ltb_lt. destruct enabled, (matched_count <? threshold);
        simpl; split; (congruence || tauto || (intros []; congruence)).
    + intros ->. by rewrite Z.ltb_irrefl, andb_false_r.
  - intros ->. unfold should_enable_ai_search. run.
    rewrite (dict_field_get _ _ _ Hai). run.
    by rewrite (bool_field_get _ _ _ _ He).
Qed.

(** C6. [get_ai_search_config] returns a dict of exactly five entries:
    [search_keywords] is the [ai_search.search_keywords] list when present
    and non-empty and [keywords.normal] otherwise (the empty list when that
    is absent too); the other four are the [ai_search] entries, with
    defaults [False], 3, 24 and 15. *)
Theorem get_ai_search_config_spec (sub ai kw : gmap string json)
    (search_keywords : list string) :
  dict_field sub "ai_search" = Some ai →
  dict_field sub "keywords" = Some kw →
  str_list_field ai "search_keywords" = Some search_keywords →
  ∃ cfg,
    get_ai_search_config (JObj sub) = Ok (JObj cfg)
    ∧ cfg !! "search_keywords"
      = Some (match search_keywords with
              | [] => default (JList []) (kw !! "normal")
              | _ => JList (JStr <$> search_keywords)
              end)
    ∧ cfg !! "enabled" = Some (default (JBool false) (ai !! "enabled"))
    ∧ cfg !! "trigger_threshold"
      = Some (default (JInt 3) (ai !! "trigger_threshold"))
    ∧ cfg !! "time_range_hours"
      = Some (default (JInt 24) (ai !! "time_range_hours"))
    ∧ cfg !! "max_results" = Some (default (JInt 15) (ai !! "max_results"))
    ∧ dom cfg = {[ "enabled"; "trigger_threshold"; "search_keywords";
                   "time_range_hours"; "max_results" ]}.
Proof.
  intros Hai Hkw Hsk. unfold get_ai_search_config. run.
  rewrite (dict_field_get _ _ _ Hai), (dict_field_get _ _ _ Hkw). run.
  assert (∃ sk,
    (if negb (truthy (default JNull (ai !! "search_keywords")))
     then Ok (default (JList []) (kw !! "normal"))
     else Ok (default JNull (ai !! "search_keywords"))) = Ok sk
    ∧ sk = match search_keywords with
           | [] => default (JList []) (kw !! "normal")
           | _ => JList (JStr <$> search_keywords)
           end) as (sk & -> & Hskv).
  { unfold str_list_field in Hsk.
    destruct (ai !! "search_keywords") as [[| | | |l|]|]; simplify_eq/=.
    - apply mapM_as_str in Hsk as ->.
      destruct search_keywords; simpl; eauto.
    - eauto. }
  run. eexists. split; [done|].
  rewrite !dom_insert_L, dom_empty_L. subst sk.
  repeat split; try done; set_solver.
Qed.

(** ** Validation *)

Lemma mapM_as_dict (l : list json) (ds : list (gmap string json)) :
  mapM as_dict l = Some ds → l = JObj <$> ds.
Proof.
  rewrite mapM_Some. induction 1 as [|v d l ds Hv _ IH]; [done|].
  destruct v; simplify_eq/=. by f_equal.
Qed.

Lemma webhooks_of_get (sub : gmap string json)
    (ws : list (gmap string json)) :
  webhooks_of sub = Some ws →
  truthy (default JNull (sub !! "webhooks")) = true →
  default (JList []) (sub !! "webhooks") = JList (JObj <$> ws)
  ∧ default JNull (sub !! "webhooks") = JList (JObj <$> ws)
  ∧ ws ≠ [].
Proof.
  unfold webhooks_of.
  destruct (sub !! "webhooks") as [[| | | |l|]|]; simpl; try done.
  intros ->%mapM_as_dict Ht. repeat split. by intros ->.
Qed.

(** *** Running a checker *)

Lemma checker_bind_Ok {A B} (m : checker A) (f : A → checker B)
    (errors errors' : list verror) (a : A) :
  m errors = (Ok a, errors') → (m ≫= f) errors = f a errors'.
Proof. intros Hm. unfold mbind, checker_bind. by rewrite Hm. Qed.

Lemma lift_dict_get {B} (d : gmap string json) (k : string) (dflt : json)
    (f : json → checker B) (errors : list verror) :
  (lift (dict_get (JObj d) k dflt) ≫= f) errors
  = f (default dflt (d !! k)) errors.
Proof. reflexivity. Qed.

Lemma when_report {B} (b : bool) (label : json) (what : violation)
    (f : unit → checker B) (errors : list verror) :
  ((if b then report label what else mret ()) ≫= f) errors
  = f () (errors ++ (if b then [{| err_sub := label; err_what := what |}]
                     else [])).
Proof. destruct b; [done|]. by rewrite app_nil_r. Qed.

Lemma check_webhooks_spec (label : json) (ws : list (gmap string json))
    (w_idx : nat) (errors : list verror) :
  check_webhooks label (JObj <$> ws) w_idx errors
  = (Ok (), errors ++ url_violations label ws w_idx).
Proof.
  revert w_idx errors. induction ws as [|w ws IH]; intros w_idx errors.
  { simpl. by rewrite app_nil_r. }
  change (check_webhooks label (JObj <$> w :: ws) w_idx) with
    (url ← lift (dict_get (JObj w) "url" JNull);
     _ ← (if negb (truthy url)
          then report label (MissingUrl w_idx)
          else mret ());
     check_webhooks label (JObj <$> ws) (S w_idx)).
  rewrite lift_dict_get, when_report, IH.
  by rewrite <- app_assoc.
Qed.

Lemma check_subscription_spec (idx : nat) (sub : gmap string json)
    (errors : list verror) :
  is_Some (webhooks_of sub) →
  check_subscription idx (JObj sub) errors
  = (Ok (), errors ++ violations idx sub).
Proof.
  intros [ws Hws]. unfold check_subscription, violations, missing, sub_label.
  rewrite lift_dict_get. cbv beta.
  set (label := default _ (sub !! "id")).
  rewrite lift_dict_get, when_report, lift_dict_get, when_report.
  rewrite lift_dict_get, <- !app_assoc.
  destruct (truthy (default JNull (sub !! "webhooks"))) eqn:Hw; cbn [negb].
  2:{ unfold report. by rewrite <- !app_assoc. }
  destruct (webhooks_of_get _ _ Hws Hw) as (Hl & _ & Hne).
  rewrite lift_dict_get, Hl, Hws. simpl default.
  destruct ws as [|w ws]; [done|].
  change (truthy (JList (JObj <$> w :: ws))) with true. cbn [negb].
  change (lift (py_iter (JList (JObj <$> w :: ws))))
    with (@lift (list json) (Ok (JObj <$> w :: ws))).
  erewrite checker_bind_Ok by reflexivity.
  rewrite (check_webhooks_spec label (w :: ws)).
  by rewrite <- ?app_assoc.
Qed.

Lemma check_subscriptions_spec (subs : list (gmap string json)) (idx : nat)
    (errors : list verror) :
  Forall (λ sub, is_Some (webhooks_of sub)) subs →
  check_subscriptions (JObj <$> subs) idx errors
  = (Ok (), errors ++ all_violations subs idx).
Proof.
  intros Hall. revert idx errors.
  induction Hall as [|sub subs Hsub _ IH]; intros idx errors.
  { simpl. by rewrite app_nil_r. }
  change (check_subscriptions (JObj <$> sub :: subs) idx) with
    (_ ← check_subscription idx (JObj sub);
     check_subscriptions (JObj <$> subs) (S idx)).
  rewrite (checker_bind_Ok _ _ _ _ _ (check_subscription_spec _ _ _ Hsub)).
  rewrite IH. simpl. by rewrite <- app_assoc.
Qed.

Lemma url_violations_nil (label : json) (ws : list (gmap string json))
    (w_idx : nat) :
  url_violations label ws w_idx = []
  ↔ existsb (λ w, missing w "url") ws = false.
Proof.
  revert w_idx. induction ws as [|w ws IH]; intros w_idx; simpl; [done|].
  destruct (missing w "url"); simpl; [done|]. apply IH.
Qed.

Lemma violations_nil (idx : nat) (sub : gmap string json) :
  violations idx sub = [] ↔ has_violation sub = false.
Proof.
  unfold violations, has_violation.
  destruct (missing sub "name"); simpl; [done|].
  destruct (missing sub "keywords"); simpl; [done|].
  destruct (missing sub "webhooks"); simpl; [done|].
  apply url_violations_nil.
Qed.

Lemma all_violations_nil (subs : list (gmap string json)) (idx : nat) :
  all_violations subs idx = []
  ↔ forallb (λ sub, negb (has_violation sub)) subs = true.
Proof.
  revert idx. induction subs as [|sub subs IH]; intros idx; simpl; [done|].
  rewrite andb_true_iff, negb_true_iff.
  rewrite <- (violations_nil idx), <- (IH (S idx)).
  split.
  - by intros [-> ->]%app_eq_nil.
  - by intros [-> ->].
Qed.

Lemma subscriptions_of_get (self : manager)
    (subs : list (gmap string json)) :
  subscriptions_of self = Some subs →
  subscriptions self = JList (JObj <$> subs)
  ∧ Forall (λ sub, is_Some (webhooks_of sub)) subs.
Proof.
  unfold subscriptions_of. destruct (subscriptions self); try done.
  destruct (mapM as_dict l) as [ds|] eqn:Hds; [|done]. simpl.
  destruct (mapM webhooks_of ds) as [wss|] eqn:Hws; [|done]. simpl.
  intros [= <-]. split.
  - by rewrite (mapM_as_dict _ _ Hds).
  - apply mapM_Some in Hws. clear Hds.
    induction Hws; constructor; eauto.
Qed.

(** On a well-typed store the loop ends, with the messages the
    specification describes. *)
Lemma collect_errors_run (self : manager) (subs : list (gmap string json)) :
  subscriptions_of self = Some subs →
  collect_errors self = (Ok (), all_violations subs 1).
Proof.
  intros (Hs & Hall)%subscriptions_of_get. unfold collect_errors.
  rewrite Hs.
  change (lift (py_iter (JList (JObj <$> subs))))
    with (@lift (list json) (Ok (JObj <$> subs))).
  erewrite checker_bind_Ok by reflexivity.
  by rewrite (check_subscriptions_spec subs 1 [] Hall).
Qed.

Lemma validate_config_run (self : manager) (subs : list (gmap string json)) :
  subscriptions_of self = Some subs →
  validate_config self
  = Ok (match subs, all_violations subs 1 with
        | [], _ => (false, [WarnNoSubscriptions])
        | _, [] => (true, [ValidationPassed])
        | _, errors => (false, ValidationFailed :: (ErrorLine <$> errors))
        end).
Proof.
  intros Hsubs. unfold validate_config.
  rewrite (collect_errors_run _ _ Hsubs).
  apply subscriptions_of_get in Hsubs as [-> _].
  destruct subs as [|sub subs]; [done|].
  change (truthy _) with true. cbn [negb].
  by destruct (all_violations _ _).
Qed.

(** C4. On a store of well-typed subscriptions [validate_config] returns
    true iff the list is non-empty and no subscription has a violation;
    when there are violations the loop runs to its end, collects a message
    for every violation of every subscription, and the call reports them all
    and returns false; a subscription with no [webhooks] entry contributes
    exactly one message about its webhooks, the missing-webhooks one. *)
Theorem validate_config_spec (self : manager)
    (subs : list (gmap string json)) :
  subscriptions_of self = Some subs →
  (∃ out,
     validate_config self
     = Ok (negb (Nat.eqb (length subs) 0)
           && forallb (λ sub, negb (has_violation sub)) subs, out))
  ∧ (subs ≠ [] → all_violations subs 1 ≠ [] →
     collect_errors self = (Ok (), all_violations subs 1)
     ∧ validate_config self
       = Ok (false,
             ValidationFailed :: (ErrorLine <$> all_violations subs 1)))
  ∧ (∀ idx sub errors,
       sub !! "webhooks" = None →
       ∃ new,
         check_subscription idx (JObj sub) errors = (Ok (), errors ++ new)
         ∧ List.filter about_webhooks new
           = [{| err_sub := sub_label idx sub;
                 err_what := MissingWebhooks |}]).
Proof.
  intros Hsubs. rewrite (validate_config_run _ _ Hsubs). repeat split.
  - destruct subs as [|sub subs]; [by eexists|].
    destruct (all_violations (sub :: subs) 1) as [|e errors] eqn:Hv.
    + apply all_violations_nil in Hv. rewrite Hv. by eexists.
    + destruct (forallb _ (sub :: subs)) eqn:Hf; [|by eexists].
      apply (all_violations_nil _ 1) in Hf. congruence.
  - by apply collect_errors_run.
  - destruct subs; [done|]. by destruct (all_violations _ _).
  - intros idx sub errors Hw. exists (violations idx sub). split.
    + apply check_subscription_spec. unfold webhooks_of. by rewrite Hw.
    + unfold violations, missing. rewrite Hw. simpl.
      destruct (truthy (default JNull (sub !! "name"))),
        (truthy (default JNull (sub !! "keywords"))); done.
Qed.

(** *** The empty-list message *)

Section Keeps.

Context {P : verror → Prop}.

Lemma keeps_ret {A} (a : A) : keeps P (mret a).
Proof. by intros errors. Qed.

Lemma keeps_lift {A} (r : result A) : keeps P (lift r).
Proof. by intros errors. Qed.

Lemma keeps_bind {A B} (m : checker A) (f : A → checker B) :
  keeps P m → (∀ a, keeps P (f a)) → keeps P (m ≫= f).
Proof.
  intros Hm Hf errors Herr. specialize (Hm errors Herr).
  unfold mbind, checker_bind. destruct (m errors) as [[a|e] errors']; [|done].
  by apply Hf.
Qed.

Lemma keeps_report (sub_id : json) (what : violation) :
  P {| err_sub := sub_id; err_what := what |} →
  keeps P (report sub_id what).
Proof.
  intros Hp errors Herr. apply Forall_app. split; [done|].
  by repeat constructor.
Qed.

End Keeps.

Lemma check_webhooks_no_empty (label : json) (ws : list json) (w_idx : nat) :
  keeps (λ e, err_what e ≠ EmptyWebhooks) (check_webhooks label ws w_idx).
Proof.
  revert w_idx. induction ws as [|w ws IH]; intros w_idx; simpl.
  { apply keeps_ret. }
  apply keeps_bind; [apply keeps_lift|]. intros url.
  apply keeps_bind; [|done].
  destruct (truthy url); simpl; [apply keeps_ret|by apply keeps_report].
Qed.

Lemma check_subscription_no_empty (idx : nat) (sub : json) :
  keeps (λ e, err_what e ≠ EmptyWebhooks) (check_subscription idx sub).
Proof.
  unfold check_subscription.
  apply keeps_bind; [apply keeps_lift|]. intros sub_id.
  apply keeps_bind; [apply keeps_lift|]. intros name.
  apply keeps_bind.
  { destruct (truthy name); simpl; [apply keeps_ret|by apply keeps_report]. }
  intros _. apply keeps_bind; [apply keeps_lift|]. intros keywords.
  apply keeps_bind.
  { destruct (truthy keywords); simpl; [apply keeps_ret|by apply keeps_report]. }
  intros _. destruct sub as [| | | | |d]; try (intros errors Herr; exact Herr).
  intros errors Herr. rewrite lift_dict_get.
  destruct (truthy (default JNull (d !! "webhooks"))) eqn:Hw; cbn [negb].
  2:{ by apply keeps_report. }
  assert (truthy (default (JList []) (d !! "webhooks")) = true) as Hw'.
  { destruct (d !! "webhooks"); [exact Hw|done]. }
  rewrite lift_dict_get, Hw'. cbn [negb]. revert errors Herr.
  apply keeps_bind; [apply keeps_lift|]. intros l.
  apply check_webhooks_no_empty.
Qed.

Lemma check_subscriptions_no_empty (subs : list json) (idx : nat) :
  keeps (λ e, err_what e ≠ EmptyWebhooks) (check_subscriptions subs idx).
Proof.
  revert idx. induction subs as [|sub subs IH]; intros idx; simpl.
  { apply keeps_ret. }
  apply keeps_bind; [apply check_subscription_no_empty|done].
Qed.

(** C9. The empty-webhooks-list message is never produced: no run of the
    validation loop appends it, whether the run ends or raises, so no report
    of [validate_config] shows it; a subscription whose [webhooks] is an
    empty list already fails the first test and gets the missing-webhooks
    message, the last message of that subscription. *)
Theorem empty_webhooks_message_unreachable :
  (∀ self,
     Forall (λ e, err_what e ≠ EmptyWebhooks) (collect_errors self).2)
  ∧ (∀ self b out e,
       validate_config self = Ok (b, out) →
       In (ErrorLine e) out →
       err_what e ≠ EmptyWebhooks)
  ∧ (∀ idx sub errors,
       sub !! "webhooks" = Some (JList []) →
       ∃ errors',
         check_subscription idx (JObj sub) errors = (Ok (), errors')
         ∧ last errors'
           = Some {| err_sub := sub_label idx sub;
                     err_what := MissingWebhooks |}).
Proof.
  assert (∀ self,
    Forall (λ e, err_what e ≠ EmptyWebhooks) (collect_errors self).2) as Hall.
  { intros self. unfold collect_errors.
    apply keeps_bind; [apply keeps_lift| |done].
    intros l. apply check_subscriptions_no_empty. }
  split; [exact Hall|]. split.
  - intros self b out e. unfold validate_config. specialize (Hall self).
    destruct (truthy (subscriptions self)); simpl.
    2:{ intros [= <- <-] [|[]]. done. }
    destruct (collect_errors self) as [[[]|ex] errors]; [|done].
    simpl in Hall. destruct errors as [|e0 errors]; intros [= <- <-].
    { intros [|[]]. done. }
    intros [|Hin]; [done|].
    change (In (ErrorLine e) (ErrorLine <$> e0 :: errors)) in Hin.
    apply list_elem_of_In, list_elem_of_fmap in Hin as (e' & [= ->] & Hin).
    by apply (proj1 (Forall_forall _ _) Hall).
  - intros idx sub errors Hw. eexists. split.
    + apply check_subscription_spec. unfold webhooks_of. by rewrite Hw.
    + unfold violations, missing. rewrite Hw. simpl.
      by rewrite !app_assoc, last_snoc.
Qed.

(** ** get_webhooks over the object store *)

Section StoreProperties.
Import Store.

Lemma dict_at_weaken (h h' : heap) (v : val) (d : gmap string val) :
  h ⊆ h' → dict_at h v = Some d → dict_at h' v = Some d.
Proof.
  intros Hsub. destruct v as [| | | |l]; simpl; try done.
  destruct (h !! l) as [o|] eqn:Hl; [|done].
  by rewrite (lookup_weaken _ _ _ _ Hl Hsub).
Qed.

Lemma list_at_weaken (h h' : heap) (v : val) (items : list val) :
  h ⊆ h' → list_at h v = Some items → list_at h' v = Some items.
Proof.
  intros Hsub. destruct v as [| | | |l]; simpl; try done.
  destruct (h !! l) as [o|] eqn:Hl; [|done].
  by rewrite (lookup_weaken _ _ _ _ Hl Hsub).
Qed.

Lemma truthy_in_weaken (h h' : heap) (v : val) (b : bool) :
  h ⊆ h' → truthy_in h v = Some b → truthy_in h' v = Some b.
Proof.
  intros Hsub. unfold truthy_in, truthy. destruct v as [| | | |l]; try done.
  destruct (h !! l) as [o|] eqn:Hl; [|done].
  rewrite (lookup_weaken _ _ _ _ Hl Hsub). by destruct o.
Qed.

Lemma has_url_weaken (h h' : heap) (w : val) (b : bool) :
  h ⊆ h' → has_url h w = Some b → has_url h' w = Some b.
Proof.
  intros Hsub. unfold has_url.
  destruct (dict_at h w) as [d|] eqn:Hd; [|done].
  rewrite (dict_at_weaken _ _ _ _ Hsub Hd). simpl.
  by apply truthy_in_weaken.
Qed.

Lemma truthy_in_run (h : heap) (v : val) (b : bool) :
  truthy_in h v = Some b → truthy v h = Some (Ok b, h).
Proof.
  unfold truthy_in, truthy. destruct v as [| | | |l]; try congruence.
  destruct (h !! l) as [[]|]; congruence.
Qed.

Lemma get_run (h : heap) (v : val) (d : gmap string val) (k : string)
    (x : val) :
  dict_at h v = Some d →
  get v k (mret x) h = Some (Ok (default x (d !! k)), h).
Proof.
  unfold get. destruct v as [| | | |l]; simpl; try done.
  destruct (h !! l) as [[]|]; try done. by intros [= ->].
Qed.

Lemma bind_run {A B} (m : prog A) (f : A → prog B) (h h' : heap) (a : A) :
  m h = Some (Ok a, h') → (m ≫= f) h = f a h'.
Proof. intros Hm. unfold mbind, prog_bind. by rewrite Hm. Qed.

Section Loop.

Variables (hb : heap) (lv lw : loc) (items : list val).
Hypothesis Hlv : hb !! lv = None.
Hypothesis Hlw : hb !! lw = Some (OList items).
Hypothesis Hitems : Forall (λ w, is_Some (has_url hb w)) items.

Lemma webhook_step_run (acc : list val) (w : val) (b : bool) :
  has_url hb w = Some b →
  webhook_step (VRef lv) w (<[lv := OList acc]> hb)
  = Some (Ok (), <[lv := OList (if b then acc ++ [w] else acc)]> hb).
Proof.
  intros Hb.
  assert (hb ⊆ <[lv := OList acc]> hb) as Hsub by by apply insert_subseteq.
  apply (has_url_weaken _ _ _ _ Hsub) in Hb. unfold has_url in Hb.
  destruct (dict_at _ w) as [dw|] eqn:Hdw; [|done]. simpl in Hb.
  unfold webhook_step.
  rewrite (bind_run _ _ _ _ _ (get_run _ _ _ "url" VNone Hdw)).
  rewrite (bind_run _ _ _ _ _ (truthy_in_run _ _ _ Hb)).
  destruct b; simpl.
  - unfold append. rewrite lookup_insert_eq. by rewrite insert_insert_eq.
  - by rewrite (bind_run _ _ _ _ _ (get_run _ _ _ "name" (VStr "未命名") Hdw)).
Qed.

Lemma for_list_run (n i : nat) (acc : list val) :
  (i + n = length items)%nat →
  for_list (S n) lw i (webhook_step (VRef lv)) (<[lv := OList acc]> hb)
  = Some (Ok (),
          <[lv := OList (acc ++ List.filter
                                  (λ w, default false (has_url hb w))
                                  (drop i items))]> hb).
Proof.
  assert (lv ≠ lw) as Hne by congruence.
  revert i acc. induction n as [|n IH]; intros i acc Hlen.
  - simpl. unfold mbind at 1, prog_bind, next_item.
    rewrite lookup_insert_ne, Hlw by done.
    rewrite (lookup_ge_None_2 items i) by lia.
    rewrite drop_ge by lia. simpl. by rewrite app_nil_r.
  - destruct (lookup_lt_is_Some_2 items i) as [w Hw]; [lia|].
    change (for_list (S (S n)) lw i ?body) with
      (x ← next_item lw i;
       match x with
       | None => mret ()
       | Some x => _ ← body x; for_list (S n) lw (S i) body
       end).
    unfold mbind at 1, prog_bind at 1, next_item.
    rewrite lookup_insert_ne, Hlw, Hw by done.
    destruct (Forall_lookup_1 _ _ _ _ Hitems Hw) as [b Hb].
    rewrite (bind_run _ _ _ _ _ (webhook_step_run acc w b Hb)).
    rewrite IH by lia.
    rewrite (drop_S _ _ _ Hw). simpl. rewrite Hb. simpl.
    destruct b; [|done]. by rewrite <- app_assoc.
Qed.

End Loop.

Lemma filter_has_url_weaken (h h' : heap) (ws : list val) :
  h ⊆ h' →
  Forall (λ w, is_Some (has_url h w)) ws →
  List.filter (λ w, default false (has_url h' w)) ws
  = List.filter (λ w, default false (has_url h w)) ws.
Proof.
  intros Hsub. induction 1 as [|w ws [b Hb] _ IH]; simpl; [done|].
  by rewrite (has_url_weaken _ _ _ _ Hsub Hb), Hb, IH.
Qed.

Lemma get_webhooks_run (h : heap) (subscription : val)
    (d : gmap string val) (webhooks : list val) :
  dict_at h subscription = Some d →
  stored_webhooks h d = Some webhooks →
  Forall (λ w, is_Some (has_url h w)) webhooks →
  let l0 := fresh (dom h) in
  let h1 := <[l0 := OList []]> h in
  let l1 := fresh (dom h1) in
  get_webhooks subscription h
  = Some (Ok (VRef l1),
          <[l1 := OList (List.filter (λ w, default false (has_url h w))
                           webhooks)]> h1).
Proof.
  intros Hd Hws Hurls l0 h1 l1.
  assert (h !! l0 = None) as Hl0 by apply not_elem_of_dom, is_fresh.
  assert (h1 !! l1 = None) as Hl1 by apply not_elem_of_dom, is_fresh.
  assert (h ⊆ h1) as Hsub by by apply insert_subseteq.
  assert (get subscription "webhooks" (alloc (OList [])) h
          = Some (Ok (default (VRef l0) (d !! "webhooks")), h1)) as Hget.
  { unfold get. destruct subscription as [| | | |ls]; simpl in Hd; try done.
    destruct (h !! ls) as [[]|]; try done. by injection Hd as ->. }
  unfold get_webhooks.
  rewrite (bind_run _ _ _ _ _ Hget).
  rewrite (bind_run _ _ h1 (<[l1 := OList []]> h1) (VRef l1)) by done.
  assert (∃ lw, default (VRef l0) (d !! "webhooks") = VRef lw
                ∧ h1 !! lw = Some (OList webhooks)) as (lw & -> & Hlw).
  { unfold stored_webhooks in Hws.
    destruct (d !! "webhooks") as [w|]; simpl.
    - destruct w as [| | | |lw]; simpl in Hws; try done. exists lw.
      split; [done|]. destruct (h !! lw) as [[]|] eqn:Hlw; try done.
      injection Hws as ->. by apply (lookup_weaken h).
    - injection Hws as <-. exists l0. split; [done|].
      apply lookup_insert_eq. }
  assert (l1 ≠ lw) as Hne by congruence.
  assert (for_in (VRef lw) (webhook_step (VRef l1)) (<[l1 := OList []]> h1)
          = Some (Ok (), <[l1 := OList (List.filter
                             (λ w, default false (has_url h w)) webhooks)]> h1))
    as Hloop.
  { unfold for_in. rewrite lookup_insert_ne, Hlw by done.
    rewrite (for_list_run h1 l1 lw webhooks Hl1 Hlw); [| |simpl; lia].
    - rewrite drop_0. simpl. by rewrite (filter_has_url_weaken h h1).
    - eapply Forall_impl; [exact Hurls|].
      intros w [b Hb]. exists b. by apply (has_url_weaken h). }
  by rewrite (bind_run _ _ _ _ _ Hloop).
Qed.

(** Every run keeps the objects the store held on entry, also a run that
    raises. *)

Lemma bind_inv {A B} (m : prog A) (f : A → prog B) (h h' : heap)
    (r : result B) :
  (m ≫= f) h = Some (r, h') →
  (∃ a h1, m h = Some (Ok a, h1) ∧ f a h1 = Some (r, h'))
  ∨ (∃ e, m h = Some (Raise e, h') ∧ r = Raise e).
Proof.
  unfold mbind, prog_bind. destruct (m h) as [[[a|e] h1]|]; [ | |done].
  - left. eauto.
  - intros [= <- <-]. right. eauto.
Qed.

Lemma get_frame (base h h' : heap) (v : val) (k : string)
    (dflt : prog val) (r : result val) :
  (∀ h0 r0 h0', base ⊆ h0 → dflt h0 = Some (r0, h0') → base ⊆ h0') →
  base ⊆ h → get v k dflt h = Some (r, h') → base ⊆ h'.
Proof.
  intros Hdflt Hsub. unfold get.
  destruct v as [| | | |l]; try by intros [= <- <-].
  destruct (h !! l) as [[]|]; try done; [by intros [= <- <-]|].
  intros [(x & h1 & Hx & [= <- <-])|(e & Hx & ->)]%bind_inv; eauto.
Qed.

Lemma alloc_frame (base h h' : heap) (o : obj) (r : result val) :
  base ⊆ h → alloc o h = Some (r, h') → base ⊆ h'.
Proof.
  intros Hsub [= <- <-]. etrans; [exact Hsub|].
  apply insert_subseteq, not_elem_of_dom, is_fresh.
Qed.

Lemma mret_frame {A} (base h h' : heap) (a : A) (r : result A) :
  base ⊆ h → (mret a : prog A) h = Some (r, h') → base ⊆ h'.
Proof. by intros Hsub [= <- <-]. Qed.

Lemma truthy_frame (h h' : heap) (v : val) (r : result bool) :
  truthy v h = Some (r, h') → h' = h.
Proof.
  unfold truthy. destruct v as [| | | |l]; try by intros [= <- <-].
  destruct (h !! l) as [[]|]; try done; by intros [= <- <-].
Qed.

Lemma append_frame (base h h' : heap) (lv : loc) (x : val)
    (r : result unit) :
  base !! lv = None → base ⊆ h →
  append (VRef lv) x h = Some (r, h') → base ⊆ h'.
Proof.
  intros Hlv Hsub. unfold append.
  destruct (h !! lv) as [[]|]; try done; intros [= <- <-]; [|done].
  etrans; [|apply insert_mono, Hsub]. by apply insert_subseteq.
Qed.

Lemma webhook_step_frame (base h h' : heap) (lv : loc)
    (w : val) (r : result unit) :
  base !! lv = None → base ⊆ h →
  webhook_step (VRef lv) w h = Some (r, h') → base ⊆ h'.
Proof.
  intros Hlv Hsub. unfold webhook_step.
  intros [(url & h1 & Hurl & Hrest)|(e & Hurl & ->)]%bind_inv.
  2:{ eapply get_frame; [|exact Hsub|exact Hurl].
      intros. by eapply mret_frame. }
  assert (base ⊆ h1) as Hsub1.
  { eapply get_frame; [|exact Hsub|exact Hurl]. intros. by eapply mret_frame. }
  apply bind_inv in Hrest as [(b & h2 & Hb & Hrest)|(e & Hb & ->)].
  2:{ by rewrite (truthy_frame _ _ _ _ Hb). }
  rewrite (truthy_frame _ _ _ _ Hb) in Hrest. destruct b; simpl in Hrest.
  - by eapply append_frame.
  - apply bind_inv in Hrest as [(x & h3 & Hx & [= <- <-])|(e & Hx & ->)];
      (eapply get_frame; [|exact Hsub1|exact Hx]); intros; by eapply mret_frame.
Qed.

Lemma for_list_frame (base : heap) (lv lw : loc) (bound i : nat)
    (h h' : heap) (r : result unit) :
  base !! lv = None → base ⊆ h →
  for_list bound lw i (webhook_step (VRef lv)) h = Some (r, h') → base ⊆ h'.
Proof.
  intros Hlv. revert i h.
  induction bound as [|bound IH]; intros i h Hsub; [done|].
  simpl. intros [(x & h1 & Hx & Hrest)|(e & Hx & ->)]%bind_inv.
  2:{ unfold next_item in Hx. by destruct (h !! lw) as [[]|]. }
  assert (h1 = h) as ->.
  { unfold next_item in Hx. destruct (h !! lw) as [[]|]; congruence. }
  destruct x as [x|]; [|by injection Hrest as <- <-].
  apply bind_inv in Hrest as [(u & h2 & Hu & Hrest)|(e & Hu & ->)].
  - eapply IH; [|exact Hrest]. by eapply webhook_step_frame.
  - by eapply webhook_step_frame.
Qed.

Lemma for_each_frame (base : heap) (lv : loc) (xs : list val)
    (h h' : heap) (r : result unit) :
  base !! lv = None → base ⊆ h →
  for_each xs (webhook_step (VRef lv)) h = Some (r, h') → base ⊆ h'.
Proof.
  intros Hlv. revert h. induction xs as [|x xs IH]; intros h Hsub.
  { by intros [= <- <-]. }
  simpl. intros [(u & h2 & Hu & Hrest)|(e & Hu & ->)]%bind_inv.
  - eapply IH; [|exact Hrest]. by eapply webhook_step_frame.
  - by eapply webhook_step_frame.
Qed.

Lemma get_webhooks_frame (h h' : heap) (subscription : val)
    (r : result val) :
  get_webhooks subscription h = Some (r, h') → h ⊆ h'.
Proof.
  unfold get_webhooks.
  intros [(webhooks & h1 & Hget & Hrest)|(e & Hget & ->)]%bind_inv.
  2:{ eapply get_frame; [|reflexivity|exact Hget].
      intros. by eapply alloc_frame. }
  assert (h ⊆ h1) as Hsub1.
  { eapply get_frame; [|reflexivity|exact Hget].
    intros. by eapply alloc_frame. }
  apply bind_inv in Hrest as [(v & h2 & [= <- <-] & Hrest)|(e & [=] & _)].
  set (lv := fresh (dom h1)) in *.
  assert (h1 !! lv = None) as Hlv by apply not_elem_of_dom, is_fresh.
  assert (h !! lv = None) as Hlv0 by by eapply lookup_weaken_None.
  assert (h ⊆ <[lv := OList []]> h1) as Hsub2.
  { etrans; [exact Hsub1|]. by apply insert_subseteq. }
  assert (∀ r0 h0, for_in webhooks (webhook_step (VRef lv))
                     (<[lv := OList []]> h1) = Some (r0, h0) → h ⊆ h0) as Hloop.
  { intros r0 h0. unfold for_in. destruct webhooks as [| | |s|l].
    1-3: by intros [= <- <-].
    - by apply for_each_frame.
    - destruct (_ !! l) as [[]|]; [| |done].
      + by apply for_list_frame.
      + by apply for_each_frame. }
  apply bind_inv in Hrest as [(u & h3 & Hu & [= <- <-])|(e & Hu & ->)]; eauto.
Qed.

(** C8. [get_webhooks] returns a new list object holding exactly the stored
    webhook entries whose [url] is present and non-empty, in their stored
    order; every object the store held before the call, the subscription
    dict and its webhooks list among them, is unchanged after it. *)
Theorem get_webhooks_spec (h : heap) (subscription : val)
    (d : gmap string val) (webhooks : list val) :
  dict_at h subscription = Some d →
  stored_webhooks h d = Some webhooks →
  Forall (λ w, is_Some (has_url h w)) webhooks →
  ∃ l h',
    get_webhooks subscription h = Some (Ok (VRef l), h')
    ∧ h !! l = None
    ∧ h' !! l
      = Some (OList (List.filter (λ w, default false (has_url h w)) webhooks))
    ∧ (∀ l0 o, h !! l0 = Some o → h' !! l0 = Some o)
    ∧ dict_at h' subscription = Some d
    ∧ stored_webhooks h' d = Some webhooks.
Proof.
  intros Hd Hws Hurls.
  pose proof (get_webhooks_run h subscription d webhooks Hd Hws Hurls) as Hrun.
  cbv zeta in Hrun.
  set (h1 := <[fresh (dom h) := OList []]> h) in *.
  set (l1 := fresh (dom h1)) in *.
  assert (h ⊆ h1) as Hsub1
    by apply insert_subseteq, not_elem_of_dom, is_fresh.
  assert (h1 !! l1 = None) as Hl1 by apply not_elem_of_dom, is_fresh.
  pose proof (get_webhooks_frame _ _ _ _ Hrun) as Hsub.
  eexists l1, _. split; [exact Hrun|]. repeat split.
  - by eapply lookup_weaken_None.
  - apply lookup_insert_eq.
  - intros l0 o Ho. by eapply lookup_weaken.
  - by eapply dict_at_weaken.
  - unfold stored_webhooks in *. destruct (d !! "webhooks"); [|done].
    by eapply list_at_weaken.
Qed.

End StoreProperties.

(** ** export_config *)

(** C5 (amended). When the write fails with an exception derived from
    [Exception], an [IOError] included, [export_config] catches it, prints
    the failure and returns normally: nothing is raised to the caller. *)
Theorem export_config_reports_write_failure
    (write_json : string → json → result unit) (self : manager)
    (output_path : string) (e : exn) :
  write_json output_path (config_data self) = Raise e →
  is_Exception e = true →
  export_config write_json self output_path = Ok [ExportFailed e].
Proof. intros Hw He. unfold export_config. by rewrite Hw, He. Qed.

(** C5 as stated fails: on a file system whose write raises [OSError],
    [export_config] does not raise it. *)
Lemma export_config_swallows_write_failure :
  ¬ (failing_write "out/subscriptions.json"
       (config_data (manager_of [sub_full]))
     = Raise OSError →
     export_config failing_write (manager_of [sub_full])
       "out/subscriptions.json"
     = Raise OSError).
Proof. intros H. specialize (H eq_refl). discriminate H. Qed.

Example export_config_on_failing_write :
  export_config failing_write (manager_of [sub_full]) "out/subscriptions.json"
  = Ok [ExportFailed OSError].
Proof. reflexivity. Qed.

(** ** Ill-typed values raise *)

Example match_null_title_raises :
  match_news_for_subscription ascii_lower (JObj ∅)
    [news_item "AI"; JObj {[ "title" := JNull ]}]
  = Raise AttributeError.
Proof. vm_compute. reflexivity. Qed.

Example match_string_limit_raises :
  match_news_for_subscription ascii_lower
    (JObj {[ "keywords" := JObj {[ "limit" := JStr "3" ]} ]}) []
  = Raise TypeError.
Proof. vm_compute. reflexivity. Qed.

Example validate_example :
  validate_config (manager_of [sub_full; sub_bare; sub_no_hooks])
  = Ok (false,
        [ValidationFailed;
         ErrorLine {| err_sub := JStr "订阅2"; err_what := MissingKeywords |};
         ErrorLine {| err_sub := JStr "订阅2"; err_what := MissingWebhooks |};
         ErrorLine {| err_sub := JStr "订阅3"; err_what := MissingWebhooks |}]).
Proof. vm_compute. reflexivity. Qed.

(** ** Instances on concrete data *)

Lemma match_news_for_subscription_spec_witness :
  ∃ matched,
    match_news_for_subscription ascii_lower (JObj sub_ai) news_ai = Ok matched
    ∧ matched = spec_match ascii_lower rule_ai news_ai
    ∧ matched `sublist_of` news_ai.
Proof.
  apply (match_news_for_subscription_spec ascii_lower sub_ai rule_ai news_ai).
  - vm_compute; reflexivity.
  - repeat constructor; eexists; vm_compute; reflexivity.
Defined.

Lemma excluded_term_vetoes_witness :
  ∃ matched,
    match_news_for_subscription ascii_lower (JObj sub_ai) news_ai = Ok matched
    ∧ ¬ In (news_item "AI广告新玩法") matched.
Proof.
  apply (excluded_term_vetoes ascii_lower sub_ai rule_ai news_ai
           (news_item "AI广告新玩法") "AI广告新玩法" "广告").
  - vm_compute; reflexivity.
  - repeat constructor; eexists; vm_compute; reflexivity.
  - vm_compute; reflexivity.
  - simpl. auto.
  - vm_compute; reflexivity.
Defined.

Lemma empty_rules_reject_nothing_witness :
  rule2_rejects ascii_lower (JList []) "ai芯片突破" = Ok false
  ∧ rule3_rejects ascii_lower JNull "ai芯片突破" = Ok false
  ∧ news_passes ascii_lower (JList []) (JList []) (JList [])
      (news_item "芯片降价") = Ok true
  ∧ match_news_for_subscription ascii_lower (JObj sub_bare) news_ai
    = Ok news_ai.
Proof.
  destruct (empty_rules_reject_nothing ascii_lower) as (H2 & H3 & Hp & Hm).
  split; [apply H2; reflexivity|].
  split; [apply H3; reflexivity|].
  split; [apply Hp; eexists; vm_compute; reflexivity|].
  apply (Hm sub_bare rule_none news_ai); try reflexivity.
  repeat constructor; eexists; vm_compute; reflexivity.
Defined.

Lemma match_without_keywords_witness :
  match_news_for_subscription ascii_lower (JObj sub_bare) news_chip
  = Ok news_chip.
Proof.
  apply (match_without_keywords ascii_lower sub_bare news_chip).
  - left. vm_compute; reflexivity.
  - repeat constructor; eexists; vm_compute; reflexivity.
Defined.

Lemma should_enable_ai_search_spec_witness :
  (int_field ai_policy "trigger_threshold" 3 = Some 2 →
     should_enable_ai_search (JObj sub_full) 1 = Ok (true && (1 <? 2))
     ∧ (should_enable_ai_search (JObj sub_full) 1 = Ok true
        ↔ true = true ∧ 1 < 2)
     ∧ (1 = 2 → should_enable_ai_search (JObj sub_full) 1 = Ok false))
  ∧ (true = false → should_enable_ai_search (JObj sub_full) 1 = Ok false).
Proof.
  apply (should_enable_ai_search_spec sub_full ai_policy true 2 1).
  - vm_compute; reflexivity.
  - vm_compute; reflexivity.
Defined.

Lemma get_ai_search_config_spec_witness :
  ∃ cfg,
    get_ai_search_config (JObj sub_full) = Ok (JObj cfg)
    ∧ cfg !! "search_keywords" = Some (JList [JStr "GPU"])
    ∧ cfg !! "enabled" = Some (default (JBool false) (ai_policy !! "enabled"))
    ∧ cfg !! "trigger_threshold"
      = Some (default (JInt 3) (ai_policy !! "trigger_threshold"))
    ∧ cfg !! "time_range_hours"
      = Some (default (JInt 24) (ai_policy !! "time_range_hours"))
    ∧ cfg !! "max_results"
      = Some (default (JInt 15) (ai_policy !! "max_results"))
    ∧ dom cfg = {[ "enabled"; "trigger_threshold"; "search_keywords";
                   "time_range_hours"; "max_results" ]}.
Proof.
  apply (get_ai_search_config_spec sub_full ai_policy
           (<["normal" := JList [JStr "AI"]]>
            (<["required" := JList []]>
            (<["excluded" := JList [JStr "广告"]]>
            (<["limit" := JInt 0]> ∅)))) ["GPU"]).
  - vm_compute; reflexivity.
  - vm_compute; reflexivity.
  - vm_compute; reflexivity.
Defined.

Lemma validate_config_spec_witness :
  (∃ out,
     validate_config (manager_of [sub_full; sub_bare])
     = Ok (negb (Nat.eqb (length [sub_full; sub_bare]) 0)
           && forallb (λ sub, negb (has_violation sub)) [sub_full; sub_bare],
           out))
  ∧ ([sub_full; sub_bare] ≠ [] →
     all_violations [sub_full; sub_bare] 1 ≠ [] →
     collect_errors (manager_of [sub_full; sub_bare])
     = (Ok (), all_violations [sub_full; sub_bare] 1)
     ∧ validate_config (manager_of [sub_full; sub_bare])
       = Ok (false,
             ValidationFailed
             :: (ErrorLine <$> all_violations [sub_full; sub_bare] 1)))
  ∧ (∀ idx sub errors,
       sub !! "webhooks" = None →
       ∃ new,
         check_subscription idx (JObj sub) errors = (Ok (), errors ++ new)
         ∧ List.filter about_webhooks new
           = [{| err_sub := sub_label idx sub;
                 err_what := MissingWebhooks |}]).
Proof.
  apply (validate_config_spec (manager_of [sub_full; sub_bare])
           [sub_full; sub_bare]).
  vm_compute; reflexivity.
Defined.

Lemma export_config_reports_write_failure_witness :
  export_config failing_write (manager_of [sub_full]) "out/subscriptions.json"
  = Ok [ExportFailed OSError].
Proof.
  apply (export_config_reports_write_failure failing_write
           (manager_of [sub_full]) "out/subscriptions.json" OSError).
  - reflexivity.
  - reflexivity.
Defined.

Lemma empty_webhooks_message_unreachable_witness :
  Forall (λ e, err_what e ≠ EmptyWebhooks)
    (collect_errors (manager_of [sub_no_hooks; sub_bare])).2
  ∧ (∀ e,
       In (ErrorLine e)
         [ValidationFailed;
          ErrorLine {| err_sub := JStr "订阅1";
                       err_what := MissingWebhooks |}] →
       err_what e ≠ EmptyWebhooks)
  ∧ (∃ errors',
       check_subscription 1 (JObj sub_no_hooks) [] = (Ok (), errors')
       ∧ last errors'
         = Some {| err_sub := sub_label 1 sub_no_hooks;
                   err_what := MissingWebhooks |}).
Proof.
  destruct empty_webhooks_message_unreachable as (Hrun & Hout & Hsub).
  split; [apply Hrun|]. split.
  - intros e. apply (Hout (manager_of [sub_no_hooks]) false).
    vm_compute; reflexivity.
  - apply (Hsub 1%nat sub_no_hooks []). vm_compute; reflexivity.
Defined.

Lemma get_webhooks_spec_witness :
  ∃ l h',
    Store.get_webhooks (Store.VRef 1) example_heap
    = Some (Ok (Store.VRef l), h')
    ∧ example_heap !! l = None
    ∧ h' !! l
      = Some (Store.OList
                (List.filter
                   (λ w, default false (Store.has_url example_heap w))
                   [Store.VRef 3; Store.VRef 4; Store.VRef 5; Store.VRef 6]))
    ∧ (∀ l0 o, example_heap !! l0 = Some o → h' !! l0 = Some o)
    ∧ Store.dict_at h' (Store.VRef 1)
      = Some (<["name" := Store.VStr "s"]>
              (<["webhooks" := Store.VRef 2]> ∅))
    ∧ Store.stored_webhooks h'
        (<["name" := Store.VStr "s"]> (<["webhooks" := Store.VRef 2]> ∅))
      = Some [Store.VRef 3; Store.VRef 4; Store.VRef 5; Store.VRef 6].
Proof.
  apply (get_webhooks_spec example_heap (Store.VRef 1)).
  - vm_compute; reflexivity.
  - vm_compute; reflexivity.
  - repeat constructor; eexists; vm_compute; reflexivity.
Defined.

Example get_webhooks_example :
  match Store.get_webhooks (Store.VRef 1) example_heap with
  | Some (Ok v, h') => Store.list_at h' v
  | _ => None
  end = Some [Store.VRef 3; Store.VRef 6].
Proof. vm_compute. reflexivity. Qed.


(** * More of the manager *)

(** ** The matcher, composed *)

Section MatcherComposition.

Variable lower : string → string.

Lemma filter_length_le {A} (f : A → bool) (l : list A) :
  (length (List.filter f l) ≤ length l)%nat.
Proof. induction l as [|x l IH]; simpl; [done|]. destruct (f x); simpl; lia. Qed.

Lemma filter_true_id {A} (f : A → bool) (l : list A) :
  Forall (λ x, f x = true) l → List.filter f l = l.
Proof. induction 1 as [|x l Hx _ IH]; simpl; [done|]. by rewrite Hx, IH. Qed.

Lemma filter_Forall_true {A} (f : A → bool) (l : list A) :
  Forall (λ x, f x = true) (List.filter f l).
Proof.
  induction l as [|x l IH]; simpl; [done|].
  destruct (f x) eqn:Hx; [by constructor|done].
Qed.

Lemma Forall_sublist {A} (P : A → Prop) (l k : list A) :
  l `sublist_of` k → Forall P k → Forall P l.
Proof.
  rewrite !Forall_forall. intros Hsub Hk x Hx.
  eapply Hk, elem_of_sublist; eauto.
Qed.

Lemma spec_match_length (rule : KeywordRule) (news_data : list json) :
  (length (spec_match lower rule news_data) ≤ length news_data)%nat
  ∧ (0 < limit rule →
     Z.of_nat (length (spec_match lower rule news_data)) ≤ limit rule).
Proof.
  unfold spec_match.
  set (passing := List.filter _ news_data).
  assert (length passing ≤ length news_data)%nat as Hle
    by apply filter_length_le.
  destruct (0 <? limit rule) eqn:H0; simpl.
  - destruct (limit rule <? Z.of_nat (length passing)) eqn:H1.
    + rewrite length_take. split; lia.
    + split; [done|]. lia.
  - split; [done|]. lia.
Qed.

Lemma spec_match_idem (rule : KeywordRule) (news_data : list json) :
  spec_match lower rule (spec_match lower rule news_data)
  = spec_match lower rule news_data.
Proof.
  unfold spec_match.
  set (f := λ n, spec_accepts lower rule (default EmptyString (title_of n))).
  set (passing := List.filter f news_data).
  assert (Forall (λ x, f x = true) passing) as Hall
    by apply filter_Forall_true.
  destruct ((0 <? limit rule) && (limit rule <? Z.of_nat (length passing)))
    eqn:Hcut.
  - apply andb_true_iff in Hcut as [H0 H1].
    rewrite (filter_true_id f (take (Z.to_nat (limit rule)) passing))
      by (apply Forall_take; exact Hall).
    rewrite length_take.
    replace (limit rule <? _) with false; [by rewrite andb_false_r|].
    symmetry. apply Z.ltb_ge. lia.
  - rewrite (filter_true_id f passing) by done. by rewrite Hcut.
Qed.

(** X1. The result is never longer than the input, and with a positive
    [limit] never longer than [limit]. *)
Theorem match_length_bounded (sub : gmap string json) (rule : KeywordRule)
    (news_data : list json) :
  rule_of sub = Some rule →
  Forall (λ n, is_Some (title_of n)) news_data →
  ∃ matched,
    match_news_for_subscription lower (JObj sub) news_data = Ok matched
    ∧ (length matched ≤ length news_data)%nat
    ∧ (0 < limit rule → Z.of_nat (length matched) ≤ limit rule).
Proof.
  intros Hrule Hnews. eexists. split; [by apply match_news_run|].
  apply spec_match_length.
Qed.

(** X2. Matching is idempotent: matching the result again returns it
    unchanged. *)
Theorem match_idempotent (sub : gmap string json) (rule : KeywordRule)
    (news_data : list json) :
  rule_of sub = Some rule →
  Forall (λ n, is_Some (title_of n)) news_data →
  ∃ matched,
    match_news_for_subscription lower (JObj sub) news_data = Ok matched
    ∧ match_news_for_subscription lower (JObj sub) matched = Ok matched.
Proof.
  intros Hrule Hnews. eexists. split; [by apply match_news_run|].
  rewrite (match_news_run lower sub rule); [by rewrite spec_match_idem|done|].
  eapply Forall_sublist; [apply spec_match_sublist|exact Hnews].
Qed.

(** X3. Without a limit ([limit <= 0]) matching distributes over
    concatenation: the news can be matched batch by batch. *)
Theorem match_unlimited_app (sub : gmap string json) (rule : KeywordRule)
    (news1 news2 : list json) :
  rule_of sub = Some rule →
  limit rule ≤ 0 →
  Forall (λ n, is_Some (title_of n)) news1 →
  Forall (λ n, is_Some (title_of n)) news2 →
  ∃ matched1 matched2,
    match_news_for_subscription lower (JObj sub) news1 = Ok matched1
    ∧ match_news_for_subscription lower (JObj sub) news2 = Ok matched2
    ∧ match_news_for_subscription lower (JObj sub) (news1 ++ news2)
      = Ok (matched1 ++ matched2).
Proof.
  intros Hrule Hlim H1 H2. eexists _, _.
  split; [by apply match_news_run|]. split; [by apply match_news_run|].
  rewrite (match_news_run lower sub rule) by (done || by apply Forall_app).
  f_equal. unfold spec_match.
  replace (0 <? limit rule) with false by (symmetry; apply Z.ltb_ge; lia).
  simpl. apply List.filter_app.
Qed.

(** X4. A [limit] that is not a number makes the call raise [TypeError]
    for every news list, the empty one included: the limit is compared with
    0 before any item is looked at. *)
Theorem match_bad_limit_raises (sub kw : gmap string json) (v : json)
    (news_data : list json) :
  sub !! "keywords" = Some (JObj kw) →
  kw !! "limit" = Some v →
  as_number v = Raise TypeError →
  match_news_for_subscription lower (JObj sub) news_data = Raise TypeError.
Proof.
  intros Hkw Hv Hnum. unfold match_news_for_subscription.
  run. rewrite Hkw. simpl default. run. rewrite Hv. simpl default.
  by rewrite Hnum.
Qed.

Lemma contains_empty (hay : string) : contains EmptyString hay = true.
Proof. by destruct hay. Qed.

(** X5. An empty string among the excluded terms vetoes every item (the
    empty string is a substring of every title): the result is empty. *)
Theorem match_empty_excluded_term (sub : gmap string json)
    (rule : KeywordRule) (news_data : list json) :
  lower EmptyString = EmptyString →
  rule_of sub = Some rule →
  In EmptyString (excluded rule) →
  Forall (λ n, is_Some (title_of n)) news_data →
  match_news_for_subscription lower (JObj sub) news_data = Ok [].
Proof.
  intros Hlow Hrule Hin Hnews.
  rewrite (match_news_run lower sub rule) by done. f_equal.
  assert (List.filter
            (λ n, spec_accepts lower rule (default EmptyString (title_of n)))
            news_data = []) as Hnil.
  { induction news_data as [|n news IH]; simpl; [done|].
    rewrite (spec_accepts_excluded lower rule _ EmptyString Hin).
    - apply IH. by inversion Hnews.
    - unfold occurs_in. rewrite Hlow. apply contains_empty. }
  unfold spec_match. rewrite Hnil, take_nil. by destruct (_ && _).
Qed.

(** X6. With AI search enabled and [0 < limit < trigger_threshold], the
    number of matched items always triggers the AI search: the cut at
    [limit] keeps the count under the threshold. *)
Theorem limit_below_threshold_triggers_ai (sub ai : gmap string json)
    (rule : KeywordRule) (threshold : Z) (news_data : list json) :
  rule_of sub = Some rule →
  Forall (λ n, is_Some (title_of n)) news_data →
  dict_field sub "ai_search" = Some ai →
  bool_field ai "enabled" false = Some true →
  int_field ai "trigger_threshold" 3 = Some threshold →
  0 < limit rule < threshold →
  ∃ matched,
    match_news_for_subscription lower (JObj sub) news_data = Ok matched
    ∧ should_enable_ai_search (JObj sub) (Z.of_nat (length matched))
      = Ok true.
Proof.
  intros Hrule Hnews Hai Hen Hth [Hpos Hlt].
  eexists. split; [by apply match_news_run|].
  rewrite (should_enable_ai_search_run _ _ _ _ _ Hai Hen Hth). simpl.
  f_equal. apply Z.ltb_lt.
  destruct (spec_match_length rule news_data) as [_ Hle].
  specialize (Hle Hpos). lia.
Qed.

End MatcherComposition.

(** ** The AI-search policy, composed *)

(** X7. The trigger is monotone in the count: if it fires for a count it
    fires for every smaller one, and if it does not fire it does not for any
    larger one. *)
Theorem should_enable_ai_search_monotone (subscription : json) (n m : Z) :
  m ≤ n →
  (should_enable_ai_search subscription n = Ok true →
   should_enable_ai_search subscription m = Ok true)
  ∧ (should_enable_ai_search subscription m = Ok false →
     should_enable_ai_search subscription n = Ok false).
Proof.
  intros Hle. unfold should_enable_ai_search.
  destruct (dict_get subscription "ai_search" (JObj ∅)) as [ai|]; [|done].
  run. destruct (dict_get ai "enabled" (JBool false)) as [en|]; [|done].
  run. destruct (truthy en); simpl; [|done].
  destruct (dict_get ai "trigger_threshold" (JInt 3)) as [th|]; [|done].
  run. destruct (as_number th) as [t|]; [|done]. run.
  destruct (n <? t) eqn:Hn, (m <? t) eqn:Hm; try done.
  apply Z.ltb_lt in Hn. apply Z.ltb_ge in Hm. lia.
Qed.

(** X8. Putting the resolved configuration back as the subscription's
    [ai_search] changes nothing: it resolves to itself, and
    [should_enable_ai_search] decides as before. *)
Theorem resolved_config_is_stable (sub : gmap string json) (cfg : json) :
  get_ai_search_config (JObj sub) = Ok cfg →
  get_ai_search_config (JObj (<["ai_search" := cfg]> sub)) = Ok cfg
  ∧ ∀ n, should_enable_ai_search (JObj (<["ai_search" := cfg]> sub)) n
         = should_enable_ai_search (JObj sub) n.
Proof.
  unfold get_ai_search_config, should_enable_ai_search. run.
  rewrite !lookup_insert_eq, lookup_insert_ne by done. simpl default.
  destruct (default (JObj ∅) (sub !! "ai_search")) as [| | | | |ai];
    try done.
  run.
  set (sk := default JNull (ai !! "search_keywords")).
  set (kw := default (JObj ∅) (sub !! "keywords")).
  destruct (if negb (truthy sk) then dict_get kw "normal" (JList [])
            else Ok sk) as [sk'|] eqn:Hsk; [|done].
  run. intros [= <-]. run.
  repeat (rewrite lookup_insert_eq || rewrite lookup_insert_ne by done).
  simpl default.
  split; [|done].
  assert ((if negb (truthy sk') then dict_get kw "normal" (JList [])
           else Ok sk') = Ok sk') as ->; [|by run].
  destruct (truthy sk') eqn:Ht; [done|]. simpl.
  destruct (truthy sk) eqn:Ht'; simpl in Hsk; [congruence|done].
Qed.

(** ** The store of subscriptions *)

Lemma chars_nil (s : string) : chars s = [] → s = EmptyString.
Proof.
  destruct s as [|a s]; [done|]. simpl.
  destruct (chars s); [done|]. by destruct (starts_inside_char s).
Qed.

(** A value with a length is true exactly when the length is positive. *)
Lemma py_len_truthy (v : json) (n : nat) :
  py_len v = Ok n → truthy v = (0 <? n)%nat.
Proof.
  destruct v as [| | |s|l|d]; simpl; try done; intros [= <-].
  - destruct s as [|a s]; [done|]. simpl.
    destruct (chars s); [done|]. by destruct (starts_inside_char s).
  - by destruct l.
  - by destruct (size d).
Qed.

Lemma py_iter_len (v : json) (l : list json) :
  py_iter v = Ok l → py_len v = Ok (length l).
Proof.
  destruct v as [| | |s|l'|d]; simpl; try done; intros [= <-].
  - by rewrite length_fmap.
  - done.
  - by rewrite !length_fmap, length_map_to_list.
Qed.

(** X9. [has_subscriptions] and [validate_config] agree on emptiness: when
    the first returns false the second warns that there are no
    subscriptions, and when the second passes the first returns true. *)
Theorem has_subscriptions_validate (self : manager) :
  (has_subscriptions self = Ok false →
   validate_config self = Ok (false, [WarnNoSubscriptions]))
  ∧ (∀ out, validate_config self = Ok (true, out) →
            has_subscriptions self = Ok true).
Proof.
  unfold has_subscriptions, validate_config, collect_errors. split.
  - destruct (py_len (subscriptions self)) as [n|] eqn:Hn; [|done].
    run. intros [= H0]. by rewrite (py_len_truthy _ _ Hn), H0.
  - intros out.
    destruct (truthy (subscriptions self)) eqn:Ht; [|done]. simpl.
    destruct (py_iter (subscriptions self)) as [l|] eqn:Hl; [|done].
    rewrite (py_iter_len _ _ Hl). run.
    by rewrite <- (py_len_truthy _ _ (py_iter_len _ _ Hl)), Ht.
Qed.

Lemma active_loop_spec (subs : list (gmap string json)) (active : list json) :
  active_loop (JObj <$> subs) active
  = Ok (active
        ++ (JObj <$> List.filter
              (λ d, truthy (default (JBool true) (d !! "enabled"))) subs)).
Proof.
  revert active. induction subs as [|d subs IH]; intros active; simpl.
  { by rewrite app_nil_r. }
  run. rewrite IH.
  destruct (truthy (default (JBool true) (d !! "enabled"))); [|done].
  simpl. by rewrite <- app_assoc.
Qed.

(** X10. On a list of subscription dicts [get_active_subscriptions]
    returns, in stored order, exactly the subscriptions whose [enabled]
    entry is absent or true. *)
Theorem get_active_subscriptions_spec (self : manager)
    (subs : list (gmap string json)) :
  subscriptions self = JList (JObj <$> subs) →
  ∃ active,
    get_active_subscriptions self = Ok (JObj <$> active)
    ∧ active `sublist_of` subs
    ∧ ∀ d, d ∈ active
           ↔ d ∈ subs
             ∧ (d !! "enabled" = None
                ∨ ∃ v, d !! "enabled" = Some v ∧ truthy v = true).
Proof.
  intros Hs.
  exists (List.filter (λ d, truthy (default (JBool true) (d !! "enabled")))
            subs).
  split; [|split].
  - unfold get_active_subscriptions. rewrite Hs. simpl py_iter. run.
    rewrite active_loop_spec. by run.
  - apply filter_sublist.
  - intros d. rewrite !list_elem_of_In, filter_In.
    destruct (d !! "enabled") as [v|]; simpl; split.
    + intros [Hin Ht]. split; [done|]. right. eauto.
    + intros [Hin [Hn|(v' & [= <-] & Ht)]]; done.
    + intros [Hin _]. split; [done|]. by left.
    + by intros [Hin _].
Qed.

(** A subscription dict whose id is not [sub_id]. *)
Lemma find_by_id_skip (pre : list (gmap string json)) (rest : list json)
    (sub_id : string) :
  Forall (λ d, py_eq_str (default JNull (d !! "id")) sub_id = false) pre →
  find_by_id ((JObj <$> pre) ++ rest) sub_id = find_by_id rest sub_id.
Proof.
  induction 1 as [|d pre Hd _ IH]; simpl; [done|]. run. by rewrite Hd.
Qed.

Lemma py_eq_str_true (v : json) (s : string) :
  py_eq_str v s = true ↔ v = JStr s.
Proof.
  destruct v; simpl; try (split; congruence).
  rewrite String.eqb_eq. split; congruence.
Qed.

(** X11. [get_subscription_by_id] returns the first subscription with the
    id, and stops there: what follows it in the list is not looked at, so
    later duplicates or ill-formed entries do not matter. *)
Theorem get_subscription_by_id_first (self : manager)
    (pre : list (gmap string json)) (d : gmap string json)
    (post : list json) (sub_id : string) :
  subscriptions self = JList ((JObj <$> pre) ++ JObj d :: post) →
  Forall (λ d', d' !! "id" ≠ Some (JStr sub_id)) pre →
  d !! "id" = Some (JStr sub_id) →
  get_subscription_by_id self sub_id = Ok (Some (JObj d)).
Proof.
  intros Hs Hpre Hd. unfold get_subscription_by_id. rewrite Hs.
  simpl py_iter. run. rewrite find_by_id_skip.
  - simpl. run. rewrite Hd. simpl. by rewrite String.eqb_refl.
  - eapply Forall_impl; [exact Hpre|]. intros d' Hd'. simpl in Hd'.
    destruct (py_eq_str (default JNull (d' !! "id")) sub_id) eqn:He; [|done].
    apply py_eq_str_true in He.
    destruct (d' !! "id") as [j|]; simpl in He; [|done].
    by subst j.
Qed.

Lemma find_by_id_sound (subs : list json) (sub_id : string) :
  match find_by_id subs sub_id with
  | Ok (Some sub) =>
      ∃ pre d post,
        subs = (JObj <$> pre) ++ JObj d :: post
        ∧ sub = JObj d
        ∧ d !! "id" = Some (JStr sub_id)
        ∧ Forall (λ d', d' !! "id" ≠ Some (JStr sub_id)) pre
  | Ok None =>
      ∃ ds, subs = JObj <$> ds
            ∧ Forall (λ d', d' !! "id" ≠ Some (JStr sub_id)) ds
  | Raise e => e = AttributeError
  end.
Proof.
  induction subs as [|sub subs IH]; simpl.
  { by exists []. }
  destruct sub as [| | | | |d]; try done. run.
  destruct (py_eq_str (default JNull (d !! "id")) sub_id) eqn:He.
  - apply py_eq_str_true in He. exists [], d, subs. repeat split; [|done].
    destruct (d !! "id"); simpl in He; congruence.
  - assert (d !! "id" ≠ Some (JStr sub_id)) as Hne.
    { intros Hid. rewrite Hid in He. simpl in He.
      by rewrite String.eqb_refl in He. }
    destruct (find_by_id subs sub_id) as [[sub'|]|e]; [| |done].
    + destruct IH as (pre & d' & post & -> & -> & Hid & Hpre).
      exists (d :: pre), d', post. repeat split; [done|]. by constructor.
    + destruct IH as (ds & -> & Hds). exists (d :: ds). split; [done|].
      by constructor.
Qed.

(** X12. A subscription returned by [get_subscription_by_id] is stored,
    has the id, and is preceded only by dicts with other ids; [None] is
    returned only when the store is empty or every stored entry is a dict
    with another id. *)
Theorem get_subscription_by_id_sound (self : manager) (sub_id : string) :
  (∀ sub,
     get_subscription_by_id self sub_id = Ok (Some sub) →
     ∃ pre d post,
       subscriptions self = JList ((JObj <$> pre) ++ JObj d :: post)
       ∧ sub = JObj d
       ∧ d !! "id" = Some (JStr sub_id)
       ∧ Forall (λ d', d' !! "id" ≠ Some (JStr sub_id)) pre)
  ∧ (get_subscription_by_id self sub_id = Ok None →
     subscriptions self = JStr EmptyString
     ∨ subscriptions self = JObj ∅
     ∨ ∃ ds, subscriptions self = JList (JObj <$> ds)
             ∧ Forall (λ d', d' !! "id" ≠ Some (JStr sub_id)) ds).
Proof.
  unfold get_subscription_by_id.
  destruct (subscriptions self) as [| | |s|l|m] eqn:Hs; simpl; try done.
  - (* a string *)
    run. pose proof (find_by_id_sound (JStr <$> chars s) sub_id) as H.
    destruct (find_by_id _ _) as [[sub'|]|e]; split; try done.
    + intros sub [= <-]. destruct H as (pre & d & post & Heq & _).
      destruct (chars s) as [|c cs], pre; done.
    + intros _. destruct H as (ds & Heq & _).
      left. f_equal. apply chars_nil.
      destruct (chars s) as [|c cs]; [done|]. by destruct ds.
  - (* a list *)
    run. pose proof (find_by_id_sound l sub_id) as H.
    destruct (find_by_id _ _) as [[sub'|]|e]; split; try done.
    + intros sub [= <-]. destruct H as (pre & d & post & -> & ? & ? & ?).
      by exists pre, d, post.
    + intros _. destruct H as (ds & -> & Hds). right. right.
      by exists ds.
  - (* a dict *)
    run. pose proof (find_by_id_sound (JStr <$> (map_to_list m).*1) sub_id)
      as H.
    destruct (find_by_id _ _) as [[sub'|]|e]; split; try done.
    + intros sub [= <-]. destruct H as (pre & d & post & Heq & _).
      destruct (map_to_list m) as [|[k v] kvs], pre; done.
    + intros _. destruct H as (ds & Heq & _).
      right. left. f_equal. apply map_to_list_empty_iff.
      destruct (map_to_list m) as [|[k v] kvs]; [done|]. by destruct ds.
Qed.

(** ** What validation guarantees *)

Lemma grows_ret {A} (a : A) : grows (mret a).
Proof. by intros errors. Qed.

Lemma grows_lift {A} (r : result A) : grows (lift r).
Proof. by intros errors. Qed.

Lemma grows_report (sub_id : json) (what : violation) :
  grows (report sub_id what).
Proof. intros errors. simpl. rewrite length_app. lia. Qed.

Lemma grows_bind {A B} (m : checker A) (f : A → checker B) :
  grows m → (∀ a, grows (f a)) → grows (m ≫= f).
Proof.
  intros Hm Hf errors. specialize (Hm errors).
  unfold mbind, checker_bind. destruct (m errors) as [[a|e] errors']; [|done].
  specialize (Hf a errors'). simpl in *. lia.
Qed.

Lemma check_webhooks_grows (label : json) (ws : list json) (w_idx : nat) :
  grows (check_webhooks label ws w_idx).
Proof.
  revert w_idx. induction ws as [|w ws IH]; intros w_idx; simpl.
  { apply grows_ret. }
  apply grows_bind; [apply grows_lift|]. intros url.
  apply grows_bind; [|done].
  destruct (truthy url); simpl; [apply grows_ret|apply grows_report].
Qed.

Lemma check_subscription_grows (idx : nat) (sub : json) :
  grows (check_subscription idx sub).
Proof.
  unfold check_subscription.
  apply grows_bind; [apply grows_lift|]. intros sub_id.
  apply grows_bind; [apply grows_lift|]. intros name.
  apply grows_bind.
  { destruct (truthy name); simpl; [apply grows_ret|apply grows_report]. }
  intros _. apply grows_bind; [apply grows_lift|]. intros keywords.
  apply grows_bind.
  { destruct (truthy keywords); simpl; [apply grows_ret|apply grows_report]. }
  intros _. apply grows_bind; [apply grows_lift|]. intros w.
  destruct (truthy w); simpl; [|apply grows_report].
  apply grows_bind; [apply grows_lift|]. intros webhooks.
  destruct (truthy webhooks); simpl; [|apply grows_report].
  apply grows_bind; [apply grows_lift|]. intros l.
  apply check_webhooks_grows.
Qed.

Lemma check_subscriptions_grows (subs : list json) (idx : nat) :
  grows (check_subscriptions subs idx).
Proof.
  revert idx. induction subs as [|sub subs IH]; intros idx; simpl.
  { apply grows_ret. }
  apply grows_bind; [apply check_subscription_grows|done].
Qed.

Lemma grows_nil {A} (m : checker A) (errors : list verror) (r : result A) :
  grows m → m errors = (r, []) → errors = [].
Proof.
  intros Hm Heq. specialize (Hm errors). rewrite Heq in Hm.
  by destruct errors; simpl in Hm; [|lia].
Qed.

Lemma lift_iter_str {B} (s : string) (f : list json → checker B)
    (errors : list verror) :
  (lift (py_iter (JStr s)) ≫= f) errors = f (JStr <$> chars s) errors.
Proof. reflexivity. Qed.

(** A webhook entry that validation accepts. *)
Lemma check_webhooks_clean (label : json) (ws : list json) (w_idx : nat) :
  check_webhooks label ws w_idx [] = (Ok (), []) →
  Forall (λ w, ∃ d, w = JObj d ∧ truthy (default JNull (d !! "url")) = true)
    ws.
Proof.
  revert w_idx. induction ws as [|w ws IH]; intros w_idx; [done|].
  destruct w as [| | | | |d]; try done.
  change (check_webhooks label (JObj d :: ws) w_idx) with
    (url ← lift (dict_get (JObj d) "url" JNull);
     _ ← (if negb (truthy url)
          then report label (MissingUrl w_idx)
          else mret ());
     check_webhooks label ws (S w_idx)).
  rewrite lift_dict_get, when_report.
  destruct (truthy (default JNull (d !! "url"))) eqn:Hu; simpl.
  - intros H. constructor; [by exists d|]. by eapply IH.
  - intros H. by apply (grows_nil _ _ _ (check_webhooks_grows _ _ _)) in H.
Qed.

Lemma webhooks_loop_clean (ws valid : list json) :
  Forall (λ w, ∃ d, w = JObj d ∧ truthy (default JNull (d !! "url")) = true)
    ws →
  webhooks_loop ws valid = Ok (valid ++ ws).
Proof.
  intros Hall. revert valid.
  induction Hall as [|w ws (d & -> & Hu) _ IH]; intros valid; simpl.
  { by rewrite app_nil_r. }
  run. rewrite Hu. simpl. by rewrite IH, <- app_assoc.
Qed.

Lemma check_subscription_clean (idx : nat) (sub : json) :
  check_subscription idx sub [] = (Ok (), []) →
  ∃ ws, ws ≠ []
        ∧ dict_get sub "webhooks" (JList []) = Ok (JList ws)
        ∧ get_webhooks sub = Ok ws.
Proof.
  destruct sub as [| | | | |d]; try done.
  unfold check_subscription.
  rewrite lift_dict_get. cbv beta.
  set (label := default _ (d !! "id")).
  rewrite lift_dict_get, when_report, lift_dict_get, when_report.
  rewrite lift_dict_get. simpl app.
  set (errs := _ ++ _).
  destruct (truthy (default JNull (d !! "webhooks"))) eqn:Hw; cbn [negb].
  2:{ unfold report. intros [= H]. by destruct errs. }
  rewrite lift_dict_get.
  assert (default (JList []) (d !! "webhooks")
          = default JNull (d !! "webhooks")) as Hdef.
  { destruct (d !! "webhooks"); [done|]. by simpl in Hw. }
  rewrite Hdef, Hw. cbn [negb].
  intros H.
  assert (errs = []) as Herrs.
  { eapply (grows_nil _ errs); [|exact H].
    apply grows_bind; [apply grows_lift|]. intros l.
    apply check_webhooks_grows. }
  rewrite Herrs in H. clear Herrs errs.
  unfold get_webhooks. run. rewrite Hdef.
  destruct (default JNull (d !! "webhooks")) as [| | |s|l|m]; try done.
  - (* a string *)
    simpl in Hw. destruct s as [|a s]; [done|].
    rewrite lift_iter_str in H.
    destruct (chars (String a s)) as [|c cs] eqn:Hc;
      [by apply chars_nil in Hc|done].
  - (* a list *)
    unfold mbind, checker_bind, lift in H. simpl py_iter in H.
    apply check_webhooks_clean in H.
    exists l. split; [by destruct l|]. split; [done|].
    simpl py_iter. run. by rewrite webhooks_loop_clean.
  - (* a dict *)
    simpl in Hw.
    unfold mbind, checker_bind, lift in H. simpl py_iter in H.
    destruct (map_to_list m) as [|[k v] kvs] eqn:Hm; [|by cbn in H].
    apply map_to_list_empty_iff in Hm. subst m.
    by rewrite map_size_empty in Hw.
Qed.

Lemma check_subscriptions_clean (subs : list json) (idx : nat) :
  check_subscriptions subs idx [] = (Ok (), []) →
  Forall (λ sub, ∃ ws, ws ≠ []
                       ∧ dict_get sub "webhooks" (JList []) = Ok (JList ws)
                       ∧ get_webhooks sub = Ok ws) subs.
Proof.
  revert idx. induction subs as [|sub subs IH]; intros idx; [done|].
  simpl. unfold mbind at 1, checker_bind.
  destruct (check_subscription idx sub []) as [[[]|e] errs] eqn:H1; [|done].
  intros H.
  assert (errs = []) as ->
    by apply (grows_nil _ _ _ (check_subscriptions_grows _ _) H).
  constructor; [by eapply check_subscription_clean|by eapply IH].
Qed.

(** What a passed validation says about the store. *)
Lemma validate_true_webhooks (self : manager) (out : list line) :
  validate_config self = Ok (true, out) →
  ∃ subs,
    subscriptions self = JList subs
    ∧ subs ≠ []
    ∧ Forall (λ sub, ∃ ws, ws ≠ []
                           ∧ dict_get sub "webhooks" (JList [])
                             = Ok (JList ws)
                           ∧ get_webhooks sub = Ok ws) subs.
Proof.
  unfold validate_config, collect_errors.
  destruct (truthy (subscriptions self)) eqn:Ht; [|done]. simpl.
  destruct (subscriptions self) as [| | |s|l|m]; try done.
  - simpl in Ht. destruct s as [|a s]; [done|].
    rewrite lift_iter_str.
    destruct (chars (String a s)) as [|c cs] eqn:Hc;
      [by apply chars_nil in Hc|done].
  - unfold mbind at 1, checker_bind, lift. simpl py_iter.
    destruct (check_subscriptions l 1 []) as [[[]|e] errs] eqn:Hc; [|done].
    destruct errs as [|e errs]; [|done]. intros _.
    exists l. split; [done|]. split; [by destruct l|].
    by eapply check_subscriptions_clean.
  - simpl in Ht.
    unfold mbind, checker_bind, lift. simpl py_iter.
    destruct (map_to_list m) as [|[k v] kvs] eqn:Hm; [|by cbn].
    apply map_to_list_empty_iff in Hm. subst m.
    by rewrite map_size_empty in Ht.
Qed.

(** X16. When [validate_config] passes, the subscriptions are a non-empty
    list and [get_webhooks] returns, for each of them, its whole non-empty
    webhooks list: nothing is skipped. *)
Theorem validated_webhooks_complete (self : manager) (out : list line) :
  validate_config self = Ok (true, out) →
  ∃ subs,
    subscriptions self = JList subs
    ∧ subs ≠ []
    ∧ Forall (λ sub, ∃ ws, ws ≠ []
                           ∧ dict_get sub "webhooks" (JList [])
                             = Ok (JList ws)
                           ∧ get_webhooks sub = Ok ws) subs.
Proof. apply validate_true_webhooks. Qed.

(** ** Statistics *)

Lemma webhooks_of_default (sub : gmap string json)
    (ws : list (gmap string json)) :
  webhooks_of sub = Some ws →
  default (JList []) (sub !! "webhooks") = JList (JObj <$> ws).
Proof.
  unfold webhooks_of.
  destruct (sub !! "webhooks") as [[| | | |l|]|]; simpl; try done.
  - by intros ->%mapM_as_dict.
  - by intros [= <-].
Qed.

Lemma stats_loop_spec (subs : list (gmap string json)) (wc ac : nat) :
  Forall (λ sub, is_Some (webhooks_of sub)) subs →
  Forall (λ sub, is_Some (dict_field sub "ai_search")) subs →
  stats_loop (JObj <$> subs) wc ac
  = Ok ((wc + sum_list (stored_webhook_count <$> subs))%nat,
        (ac + length (List.filter ai_on subs))%nat).
Proof.
  intros Hw. revert wc ac.
  induction Hw as [|sub subs [ws Hws] _ IH]; intros wc ac Hai.
  { simpl. by rewrite !Nat.add_0_r. }
  apply Forall_cons in Hai as [[ai Hsub] Hai].
  assert (stored_webhook_count sub = length ws) as Hc.
  { unfold stored_webhook_count. by rewrite Hws. }
  assert (ai_on sub = truthy (default (JBool false) (ai !! "enabled")))
    as Ha.
  { unfold ai_on. by rewrite Hsub. }
  change (stats_loop (JObj <$> sub :: subs) wc ac) with
    (webhooks ← dict_get (JObj sub) "webhooks" (JList []);
     n ← py_len webhooks;
     ai_search ← dict_get (JObj sub) "ai_search" (JObj ∅);
     enabled ← dict_get ai_search "enabled" (JBool false);
     stats_loop (JObj <$> subs) (wc + n)
       (if truthy enabled then S ac else ac)).
  run. rewrite (webhooks_of_default _ _ Hws). simpl py_len. run.
  rewrite (dict_field_get _ _ _ Hsub). run.
  rewrite IH by done. rewrite length_fmap, <- Ha, <- Hc.
  change (List.filter ai_on (sub :: subs))
    with (if ai_on sub then sub :: List.filter ai_on subs
          else List.filter ai_on subs).
  change (sum_list (stored_webhook_count <$> sub :: subs))
    with (stored_webhook_count sub
          + sum_list (stored_webhook_count <$> subs))%nat.
  set (s := sum_list _). set (k := List.filter _ _).
  destruct (ai_on sub); simpl length;
    apply (f_equal Ok), pair_equal_spec; split; lia.
Qed.

Lemma get_active_subscriptions_run (self : manager)
    (subs : list (gmap string json)) :
  subscriptions self = JList (JObj <$> subs) →
  get_active_subscriptions self
  = Ok (JObj <$> List.filter is_active subs).
Proof.
  intros Hs. unfold get_active_subscriptions. rewrite Hs. simpl py_iter. run.
  rewrite active_loop_spec. by run.
Qed.

Lemma get_statistics_run (self : manager) (subs : list (gmap string json))
    (cd : gmap string json) :
  subscriptions_of self = Some subs →
  Forall (λ sub, is_Some (dict_field sub "ai_search")) subs →
  config_data self = JObj cd →
  get_statistics self
  = Ok (JObj
      (<["total_subscriptions" := JInt (Z.of_nat (length subs))]>
      (<["active_subscriptions" :=
           JInt (Z.of_nat (length (List.filter is_active subs)))]>
      (<["total_webhooks" :=
           JInt (Z.of_nat (sum_list (stored_webhook_count <$> subs)))]>
      (<["ai_enabled_count" :=
           JInt (Z.of_nat (length (List.filter ai_on subs)))]>
      (<["config_version" := default (JStr "未知") (cd !! "version")]>
         ∅)))))).
Proof.
  intros (Hs & Hw)%subscriptions_of_get Hai Hcd. unfold get_statistics.
  rewrite (get_active_subscriptions_run _ _ Hs), Hs, Hcd.
  simpl py_len. simpl py_iter. run.
  rewrite (stats_loop_spec subs 0 0 Hw Hai). run.
  by rewrite !length_fmap.
Qed.

(** X13. On well-typed subscriptions [get_statistics] returns the five
    counts: all subscriptions, those with [enabled] absent or true, all
    stored webhook entries, the subscriptions with AI search enabled, and the
    version (or its default); the active and AI counts are at most the
    total. *)
Theorem get_statistics_spec (self : manager)
    (subs : list (gmap string json)) (cd : gmap string json) :
  subscriptions_of self = Some subs →
  Forall (λ sub, is_Some (dict_field sub "ai_search")) subs →
  config_data self = JObj cd →
  ∃ active webhooks ai_enabled : nat,
    get_statistics self
    = Ok (JObj
        (<["total_subscriptions" := JInt (Z.of_nat (length subs))]>
        (<["active_subscriptions" := JInt (Z.of_nat active)]>
        (<["total_webhooks" := JInt (Z.of_nat webhooks)]>
        (<["ai_enabled_count" := JInt (Z.of_nat ai_enabled)]>
        (<["config_version" := default (JStr "未知") (cd !! "version")]>
           ∅))))))
    ∧ active = length (List.filter is_active subs)
    ∧ webhooks = sum_list (stored_webhook_count <$> subs)
    ∧ ai_enabled = length (List.filter ai_on subs)
    ∧ (active ≤ length subs)%nat
    ∧ (ai_enabled ≤ length subs)%nat.
Proof.
  intros Hs Hai Hcd. eexists _, _, _.
  split; [by apply get_statistics_run|].
  repeat split; apply filter_length_le.
Qed.

Lemma webhooks_loop_spec (ws : list (gmap string json)) (valid : list json) :
  webhooks_loop (JObj <$> ws) valid
  = Ok (valid
        ++ (JObj <$> List.filter
              (λ w, truthy (default JNull (w !! "url"))) ws)).
Proof.
  revert valid. induction ws as [|w ws IH]; intros valid; simpl.
  { by rewrite app_nil_r. }
  run. destruct (truthy (default JNull (w !! "url"))); simpl; run.
  - by rewrite IH, <- app_assoc.
  - apply IH.
Qed.

Lemma get_webhooks_typed (sub : gmap string json)
    (ws : list (gmap string json)) :
  webhooks_of sub = Some ws →
  get_webhooks (JObj sub)
  = Ok (JObj <$> List.filter (λ w, truthy (default JNull (w !! "url"))) ws).
Proof.
  intros Hws. unfold get_webhooks. run.
  rewrite (webhooks_of_default _ _ Hws). simpl py_iter. run.
  by rewrite webhooks_loop_spec.
Qed.

Lemma usable_le_stored (sub : gmap string json) :
  is_Some (webhooks_of sub) →
  (usable_webhook_count sub ≤ stored_webhook_count sub)%nat.
Proof.
  intros [ws Hws]. unfold usable_webhook_count, stored_webhook_count.
  rewrite (get_webhooks_typed _ _ Hws), Hws, length_fmap.
  apply filter_length_le.
Qed.

Lemma sum_list_le (f g : gmap string json → nat)
    (l : list (gmap string json)) :
  Forall (λ x, f x ≤ g x)%nat l →
  (sum_list (f <$> l) ≤ sum_list (g <$> l))%nat.
Proof. induction 1 as [|x l Hx _ IH]; csimpl in *; lia. Qed.

Lemma sum_list_eq (f g : gmap string json → nat)
    (l : list (gmap string json)) :
  Forall (λ x, f x = g x) l → sum_list (f <$> l) = sum_list (g <$> l).
Proof. induction 1 as [|x l Hx _ IH]; csimpl in *; lia. Qed.

(** X14. [total_webhooks] counts the stored entries, usable or not: it is
    at least the number of webhooks [get_webhooks] returns over all
    subscriptions, and equal to it when [validate_config] passes. *)
Theorem statistics_count_stored_webhooks (self : manager)
    (subs : list (gmap string json)) (cd : gmap string json) :
  subscriptions_of self = Some subs →
  Forall (λ sub, is_Some (dict_field sub "ai_search")) subs →
  config_data self = JObj cd →
  ∃ (c : gmap string json) (n : nat),
    get_statistics self = Ok (JObj c)
    ∧ c !! "total_webhooks" = Some (JInt (Z.of_nat n))
    ∧ (sum_list (usable_webhook_count <$> subs) ≤ n)%nat
    ∧ (∀ out, validate_config self = Ok (true, out) →
              sum_list (usable_webhook_count <$> subs) = n).
Proof.
  intros Hs Hai Hcd. eexists _, _.
  split; [by apply get_statistics_run|].
  split; [by repeat (rewrite lookup_insert_eq
                     || rewrite lookup_insert_ne by done)|].
  apply subscriptions_of_get in Hs as [Hs Hw]. split.
  - apply sum_list_le. eapply Forall_impl; [exact Hw|].
    intros sub. apply usable_le_stored.
  - intros out (l & Hl & _ & Hall)%validate_true_webhooks.
    rewrite Hs in Hl. injection Hl as <-.
    apply sum_list_eq. rewrite Forall_fmap in Hall.
    rewrite Forall_forall in Hall. rewrite Forall_forall in Hw.
    apply Forall_forall.
    intros sub Hin. destruct (Hw sub Hin) as [ws0 Hws0].
    destruct (Hall sub Hin) as (ws & _ & Hget & Hrun). simpl in Hget, Hrun.
    unfold usable_webhook_count, stored_webhook_count.
    rewrite Hrun, Hws0. simpl default.
    rewrite (webhooks_of_default _ _ Hws0) in Hget.
    injection Hget as <-. by rewrite length_fmap.
Qed.

(** X15. When [ai_enabled_count] is 0, [should_enable_ai_search] returns
    false for every subscription and every count. *)
Theorem no_ai_enabled_never_triggers (self : manager)
    (subs : list (gmap string json)) (cd : gmap string json) :
  subscriptions_of self = Some subs →
  Forall (λ sub, is_Some (dict_field sub "ai_search")) subs →
  config_data self = JObj cd →
  ∃ c : gmap string json,
    get_statistics self = Ok (JObj c)
    ∧ (c !! "ai_enabled_count" = Some (JInt 0) →
       Forall (λ sub, ∀ n, should_enable_ai_search (JObj sub) n = Ok false)
         subs).
Proof.
  intros Hs Hai Hcd. eexists.
  split; [by apply get_statistics_run|].
  repeat (rewrite lookup_insert_eq || rewrite lookup_insert_ne by done).
  intros [= Hlen].
  assert (List.filter ai_on subs = []) as Hnil
    by (destruct (List.filter ai_on subs); simpl in Hlen; [done|lia]).
  clear Hlen Hs. induction Hai as [|sub subs [ai Hsub] _ IH]; [done|].
  simpl in Hnil. destruct (ai_on sub) eqn:Hon; [done|].
  constructor; [|by apply IH].
  intros n. unfold should_enable_ai_search. run.
  rewrite (dict_field_get _ _ _ Hsub). run.
  unfold ai_on in Hon. rewrite Hsub in Hon. by rewrite Hon.
Qed.

(** X17. A [webhooks] entry that is [null], a boolean or a number makes
    [get_webhooks] raise [TypeError]; when it is falsy ([null], [false],
    0), validation does not raise and reports it as missing. *)
Theorem null_webhooks_raise (sub : gmap string json) (v : json) :
  sub !! "webhooks" = Some v →
  py_iter v = Raise TypeError →
  get_webhooks (JObj sub) = Raise TypeError
  ∧ (truthy v = false →
     ∀ idx errors,
       ∃ errors',
         check_subscription idx (JObj sub) errors = (Ok (), errors')
         ∧ last errors'
           = Some {| err_sub := sub_label idx sub;
                     err_what := MissingWebhooks |}).
Proof.
  intros Hv Hiter. split.
  - unfold get_webhooks. run. rewrite Hv. simpl default. by rewrite Hiter.
  - intros Hf idx errors. unfold check_subscription.
    assert (default JNull (sub !! "webhooks") = v) as Hd by by rewrite Hv.
    rewrite lift_dict_get. cbv beta.
    rewrite lift_dict_get, when_report, lift_dict_get, when_report.
    rewrite lift_dict_get, Hd, Hf. cbn [negb].
    eexists. split; [done|]. unfold sub_label. by rewrite last_snoc.
Qed.

(** ** Construction, export and the sample *)

Section LoadProperties.

Variable path_exists : string → bool.
Variable read_json : string → read_outcome.

(** What construction establishes. *)
Lemma init_constructed (p : string) (self : manager) :
  __init__ path_exists read_json p = Constructed self →
  config_path self = p
  ∧ (∃ cd,
       config_data self = JObj cd
       ∧ subscriptions self = default (JList []) (cd !! "subscriptions")
       ∧ global_settings self = default (JObj ∅) (cd !! "global_settings")
       ∧ (if path_exists p
          then read_json p = ReadOk (JObj cd)
          else cd = ∅))
  ∧ (∃ b, has_subscriptions self = Ok b)
  ∧ get_global_settings self = global_settings self.
Proof.
  unfold __init__, _load_config. simpl config_path.
  destruct (path_exists p); simpl.
  - destruct (read_json p) as [data| |e]; [|done|done].
    destruct data as [| | | | |cd]; try done. run.
    destruct (py_len (default (JList []) (cd !! "subscriptions")))
      as [n|] eqn:Hn; [|done].
    run. intros [= <-]. simpl. split; [done|]. split; [by exists cd|].
    split; [|done]. unfold has_subscriptions. simpl. rewrite Hn. by eexists.
  - intros [= <-]. simpl. split; [done|]. split; [by exists ∅|].
    split; [by eexists|done].
Qed.

(** X22. When the file exists the constructor raises what reading raises,
    [AttributeError] when the document is not an object and [TypeError] when
    its [subscriptions] entry has no length ([null], a boolean, a number);
    it constructs only from an object whose subscriptions have a length. *)
Theorem init_raises (p : string) :
  path_exists p = true →
  (read_json p = ReadBadJson →
   __init__ path_exists read_json p = InitRaised JSONDecodeError)
  ∧ (∀ e, read_json p = ReadRaise e →
          __init__ path_exists read_json p = InitRaised (LoadError e))
  ∧ (∀ data, read_json p = ReadOk data → as_dict data = None →
             __init__ path_exists read_json p
             = InitRaised (LoadError AttributeError))
  ∧ (∀ cd v, read_json p = ReadOk (JObj cd) →
             cd !! "subscriptions" = Some v →
             py_len v = Raise TypeError →
             __init__ path_exists read_json p
             = InitRaised (LoadError TypeError))
  ∧ (∀ self, __init__ path_exists read_json p = Constructed self →
             ∃ cd n, read_json p = ReadOk (JObj cd)
                     ∧ py_len (default (JList []) (cd !! "subscriptions"))
                       = Ok n).
Proof.
  intros Hp. unfold __init__, _load_config. simpl config_path. rewrite Hp.
  simpl. repeat split.
  - by intros ->.
  - by intros e ->.
  - intros data -> Hd. by destruct data.
  - intros cd v -> Hv Hiter. run. rewrite Hv. simpl default.
    by destruct v.
  - intros self. destruct (read_json p) as [data| |e]; [|done|done].
    destruct data as [| | | | |cd]; try done. run.
    destruct (default (JList []) (cd !! "subscriptions")) as [| | |s|l|m]
      eqn:Hd; try done; intros _; exists cd; rewrite Hd; eexists;
      (split; [done|reflexivity]).
Qed.

(** X20. A constructed manager keeps its path, its [config_data] is a
    dict (the document read, or empty when the file is absent), its
    [subscriptions] and [global_settings] are the entries of that dict or
    their defaults, and [has_subscriptions] returns on it. *)
Theorem init_invariant (p : string) (self : manager) :
  __init__ path_exists read_json p = Constructed self →
  config_path self = p
  ∧ (∃ cd,
       config_data self = JObj cd
       ∧ subscriptions self = default (JList []) (cd !! "subscriptions")
       ∧ global_settings self = default (JObj ∅) (cd !! "global_settings")
       ∧ (if path_exists p
          then read_json p = ReadOk (JObj cd)
          else cd = ∅))
  ∧ (∃ b, has_subscriptions self = Ok b)
  ∧ get_global_settings self = global_settings self.
Proof. apply init_constructed. Qed.

End LoadProperties.

(** X21. When the file is absent the manager is constructed empty: no
    subscriptions, validation fails with the warning, no active
    subscription, no subscription by any id, empty settings and all-zero
    statistics. *)
Theorem init_missing_file (path_exists : string → bool)
    (read_json : string → read_outcome) (p sub_id : string) :
  path_exists p = false →
  ∃ self,
    __init__ path_exists read_json p = Constructed self
    ∧ has_subscriptions self = Ok false
    ∧ validate_config self = Ok (false, [WarnNoSubscriptions])
    ∧ get_active_subscriptions self = Ok []
    ∧ get_subscription_by_id self sub_id = Ok None
    ∧ get_global_settings self = JObj ∅
    ∧ get_statistics self
      = Ok (JObj (<["total_subscriptions" := JInt 0]>
                 (<["active_subscriptions" := JInt 0]>
                 (<["total_webhooks" := JInt 0]>
                 (<["ai_enabled_count" := JInt 0]>
                 (<["config_version" := JStr "未知"]> ∅)))))).
Proof.
  intros Hp. eexists. unfold __init__, _load_config. simpl config_path.
  rewrite Hp. simpl. done.
Qed.


(** X24. The sample configuration is valid: a manager constructed from a
    file that holds the sample passes [validate_config], and its statistics
    are one subscription, active, with one webhook and AI search off. *)
Theorem sample_config_validates (weight : json)
    (path_exists : string → bool) (read_json : string → read_outcome)
    (p : string) :
  path_exists p = true →
  read_json p = ReadOk (sample_config weight) →
  ∃ self,
    __init__ path_exists read_json p = Constructed self
    ∧ config_data self = sample_config weight
    ∧ validate_config self = Ok (true, [ValidationPassed])
    ∧ get_statistics self
      = Ok (JObj (<["total_subscriptions" := JInt 1]>
                 (<["active_subscriptions" := JInt 1]>
                 (<["total_webhooks" := JInt 1]>
                 (<["ai_enabled_count" := JInt 0]>
                 (<["config_version" := JStr "1.0"]> ∅)))))).
Proof.
  intros Hq Hr.
  unfold __init__, _load_config. simpl config_path. rewrite Hq, Hr.
  eexists. split; [reflexivity|]. split; [reflexivity|].
  split; vm_compute; reflexivity.
Qed.

(** ** The object store and the values *)

Section StoreRefinement.

#[local] Existing Instance Store.prog_ret.
#[local] Existing Instance Store.prog_bind.

Lemma bind_raise {A B} (m : Store.prog A) (f : A → Store.prog B)
    (h h' : Store.heap) (e : exn) :
  m h = Some (Raise e, h') → (m ≫= f) h = Some (Raise e, h').
Proof. intros Hm. unfold mbind, Store.prog_bind. by rewrite Hm. Qed.

Lemma repr_dict_size (h : Store.heap) (d : gmap string Store.val)
    (dj : gmap string json) :
  (∀ k, option_Forall2 (repr h) (d !! k) (dj !! k)) → size d = size dj.
Proof.
  intros H. rewrite <- !size_dom. f_equal. apply set_eq. intros k.
  rewrite !elem_of_dom. specialize (H k).
  destruct H; split; intros [? ?]; by eauto.
Qed.

Lemma repr_truthy (h : Store.heap) (v : Store.val) (j : json) :
  repr h v j → Store.truthy_in h v = Some (truthy j).
Proof.
  unfold Store.truthy_in, Store.truthy.
  destruct 1 as [| | | |l items js Hl Hall|l d dj Hl Hall]; simpl; try done.
  - by rewrite Hl, (Forall2_length _ _ _ Hall).
  - by rewrite Hl, (repr_dict_size _ _ _ Hall).
Qed.

Lemma repr_lookup (h : Store.heap) (d : gmap string Store.val)
    (dj : gmap string json)
    (k : string) (x : Store.val) (xj : json) :
  (∀ k, option_Forall2 (repr h) (d !! k) (dj !! k)) →
  repr h x xj →
  repr h (default x (d !! k)) (default xj (dj !! k)).
Proof. intros H Hx. by destruct (H k). Qed.

(** The receiver of a [get] that is not a dict. *)
Lemma repr_get_raises (h h' : Store.heap) (v : Store.val) (j : json) (k : string)
    (dflt : Store.prog Store.val) :
  repr h v j → as_dict j = None → h ⊆ h' →
  Store.get v k dflt h' = Some (Raise AttributeError, h').
Proof.
  intros Hr Hj Hsub. unfold Store.get.
  destruct Hr as [| | | |l items js Hl Hall|l d dj Hl Hall]; try done.
  by rewrite (lookup_weaken _ _ _ _ Hl Hsub).
Qed.

Lemma repr_has_url (h : Store.heap) (w : Store.val) (dw : gmap string json) :
  repr h w (JObj dw) →
  Store.has_url h w = Some (truthy (default JNull (dw !! "url"))).
Proof.
  inversion 1 as [| | | | |l d dj Hl Hall]; subst. unfold Store.has_url. simpl.
  rewrite Hl. simpl. apply repr_truthy, repr_lookup; [done|constructor].
Qed.

Section Simulation.

Variables (h hb : Store.heap) (lv lw : Store.loc).
Variables (items : list Store.val) (js : list json).
Hypothesis Hsub : h ⊆ hb.
Hypothesis Hlv : hb !! lv = None.
Hypothesis Hlw : hb !! lw = Some (Store.OList items).
Hypothesis Hitems : Forall2 (repr h) items js.

Lemma webhook_step_sim (acc : list Store.val) (w : Store.val) (wj : json) :
  repr h w wj →
  match dict_get wj "url" JNull with
  | Ok url =>
      Store.webhook_step (Store.VRef lv) w (<[lv := Store.OList acc]> hb)
      = Some (Ok (), <[lv := Store.OList (if truthy url
                                    then acc ++ [w] else acc)]> hb)
  | Raise e =>
      Store.webhook_step (Store.VRef lv) w (<[lv := Store.OList acc]> hb)
      = Some (Raise e, <[lv := Store.OList acc]> hb)
  end.
Proof.
  intros Hr.
  assert (h ⊆ <[lv := Store.OList acc]> hb) as Hsub'.
  { etrans; [exact Hsub|]. by apply insert_subseteq. }
  destruct wj as [| | | | |dw];
    try (simpl; unfold Store.webhook_step;
         by rewrite (bind_raise _ _ _ _ _
                       (repr_get_raises _ _ _ _ _ _ Hr eq_refl Hsub'))).
  simpl. pose proof (repr_has_url _ _ _ Hr) as Hu.
  apply (has_url_weaken _ _ _ _ Hsub) in Hu.
  exact (webhook_step_run hb lv Hlv acc w _ Hu).
Qed.

Lemma for_list_next (bound i : nat) (body : Store.val → Store.prog unit)
    (acc : list Store.val) (w : Store.val) :
  items !! i = Some w →
  Store.for_list (S bound) lw i body (<[lv := Store.OList acc]> hb)
  = (_ ← body w; Store.for_list bound lw (S i) body)
      (<[lv := Store.OList acc]> hb).
Proof.
  intros Hw. assert (lv ≠ lw) as Hne by congruence.
  simpl. unfold mbind at 1, Store.prog_bind at 1, Store.next_item.
  by rewrite lookup_insert_ne, Hlw, Hw by done.
Qed.

Lemma for_list_end (bound i : nat) (body : Store.val → Store.prog unit)
    (acc : list Store.val) :
  (length items ≤ i)%nat →
  Store.for_list (S bound) lw i body (<[lv := Store.OList acc]> hb)
  = Some (Ok (), <[lv := Store.OList acc]> hb).
Proof.
  intros Hi. assert (lv ≠ lw) as Hne by congruence.
  simpl. unfold mbind at 1, Store.prog_bind at 1, Store.next_item.
  rewrite lookup_insert_ne, Hlw by done.
  by rewrite (lookup_ge_None_2 items i) by lia.
Qed.

Lemma for_list_sim (n i : nat) (acc : list Store.val) (accj : list json) :
  (i + n = length items)%nat →
  Forall2 (repr h) acc accj →
  match webhooks_loop (drop i js) accj with
  | Ok resj =>
      ∃ res,
        Store.for_list (S n) lw i (Store.webhook_step (Store.VRef lv))
          (<[lv := Store.OList acc]> hb)
        = Some (Ok (), <[lv := Store.OList res]> hb)
        ∧ Forall2 (repr h) res resj
  | Raise e =>
      ∃ res,
        Store.for_list (S n) lw i (Store.webhook_step (Store.VRef lv))
          (<[lv := Store.OList acc]> hb)
        = Some (Raise e, <[lv := Store.OList res]> hb)
  end.
Proof.
  pose proof (Forall2_length _ _ _ Hitems) as Hlen.
  revert i acc accj. induction n as [|n IH]; intros i acc accj Hi Hacc.
  - rewrite drop_ge by lia. simpl webhooks_loop. exists acc.
    split; [|done]. apply for_list_end. lia.
  - destruct (lookup_lt_is_Some_2 items i) as [w Hw]; [lia|].
    destruct (lookup_lt_is_Some_2 js i) as [wj Hwj]; [lia|].
    pose proof (Forall2_lookup_lr _ _ _ _ _ _ Hitems Hw Hwj) as Hr.
    rewrite (drop_S _ _ _ Hwj), (for_list_next _ _ _ _ _ Hw).
    pose proof (webhook_step_sim acc w wj Hr) as Hstep.
    simpl webhooks_loop.
    destruct (dict_get wj "url" JNull) as [url|e] eqn:Hurl.
    + rewrite (bind_run _ _ _ _ _ Hstep). run.
      assert (∃ dw, wj = JObj dw) as [dw ->] by (destruct wj; by eauto).
      destruct (truthy url); cbn [negb]; cbv iota; run.
      * apply IH; [lia|]. apply Forall2_app; [done|]. by constructor.
      * apply IH; [lia|done].
    + rewrite (bind_raise _ _ _ _ _ Hstep). run. by exists acc.
Qed.

End Simulation.

Lemma map_to_list_nil_size {V} (m : gmap string V) :
  map_to_list m = [] ↔ size m = 0%nat.
Proof. by rewrite map_to_list_empty_iff, map_size_empty_iff. Qed.

(** X19. [Store.get_webhooks] computes [get_webhooks]: on a subscription
    of the store that stands for a JSON value, it returns a new list whose
    entries stand for the entries the value-level method returns, and it
    raises exactly when and what the value-level method raises. *)
Theorem get_webhooks_refines (h : Store.heap) (subscription : Store.val)
    (j : json) :
  repr h subscription j →
  match get_webhooks j with
  | Ok js =>
      ∃ l h' items,
        Store.get_webhooks subscription h = Some (Ok (Store.VRef l), h')
        ∧ h !! l = None
        ∧ h' !! l = Some (Store.OList items)
        ∧ Forall2 (repr h) items js
  | Raise e => ∃ h', Store.get_webhooks subscription h = Some (Raise e, h')
  end.
Proof.
  intros Hr. unfold get_webhooks, Store.get_webhooks.
  destruct j as [| | | | |dj];
    try (simpl; exists h;
         by rewrite (bind_raise _ _ _ _ _
                       (repr_get_raises _ _ _ _ _ _ Hr eq_refl
                          (reflexivity h)))).
  inversion Hr as [| | | | |ls d dj' Hls Hall]; subst.
  set (l0 := fresh (dom h)).
  set (h1 := <[l0 := Store.OList []]> h).
  set (l1 := fresh (dom h1)).
  assert (h !! l0 = None) as Hl0 by apply not_elem_of_dom, is_fresh.
  assert (h1 !! l1 = None) as Hl1 by apply not_elem_of_dom, is_fresh.
  assert (h ⊆ h1) as Hsub by by apply insert_subseteq.
  assert (h !! l1 = None) as Hl1' by by eapply lookup_weaken_None.
  assert (h ⊆ <[l1 := Store.OList []]> h1) as Hsub2.
  { etrans; [exact Hsub|]. by apply insert_subseteq. }
  assert (Store.get (Store.VRef ls) "webhooks" (Store.alloc (Store.OList []))
            h
          = Some (Ok (default (Store.VRef l0) (d !! "webhooks")), h1))
    as Hget.
  { unfold Store.get. by rewrite Hls. }
  rewrite (bind_run _ _ _ _ _ Hget).
  rewrite (bind_run _ _ h1 (<[l1 := Store.OList []]> h1) (Store.VRef l1))
    by done.
  run.
  destruct (Hall "webhooks") as [x xj Hx|]; simpl default.
  2:{ (* no entry: the default list *)
    simpl. exists l1, (<[l1 := Store.OList []]> h1), [].
    split; [|by rewrite lookup_insert_eq].
    assert (Store.for_in (Store.VRef l0)
              (Store.webhook_step (Store.VRef l1))
              (<[l1 := Store.OList []]> h1)
            = Some (Ok (), <[l1 := Store.OList []]> h1)) as Hloop.
    { assert (h1 !! l0 = Some (Store.OList [])) as Hl01
        by apply lookup_insert_eq.
      assert (l1 ≠ l0) as Hne by congruence.
      unfold Store.for_in. rewrite lookup_insert_ne, Hl01 by done.
      by apply (for_list_end h1 l1 l0 []). }
    by rewrite (bind_run _ _ _ _ _ Hloop). }
  destruct Hx as [| | |s|lw items js Hlw Hitems|lw d' dj' Hlw Hall'].
  - simpl. by eexists.
  - simpl. by eexists.
  - simpl. by eexists.
  - (* a string *)
    simpl py_iter. run. unfold Store.for_in.
    destruct (chars s) as [|c cs]; simpl.
    + exists l1, (<[l1 := Store.OList []]> h1), [].
      by rewrite lookup_insert_eq.
    + by eexists.
  - (* a list *)
    simpl py_iter. run.
    assert (h1 !! lw = Some (Store.OList items)) as Hlw1
      by by apply (lookup_weaken h).
    assert (l1 ≠ lw) as Hne by congruence.
    pose proof (for_list_sim h h1 l1 lw items js Hsub Hl1 Hlw1 Hitems
                  (length items) 0 [] [] eq_refl (List.Forall2_nil _)) as Hsim.
    rewrite drop_0 in Hsim.
    assert (Store.for_in (Store.VRef lw)
              (Store.webhook_step (Store.VRef l1))
              (<[l1 := Store.OList []]> h1)
            = Store.for_list (S (length items)) lw 0
                (Store.webhook_step (Store.VRef l1))
                (<[l1 := Store.OList []]> h1)) as Hin.
    { unfold Store.for_in. by rewrite lookup_insert_ne, Hlw1 by done. }
    rewrite <- Hin in Hsim. revert Hsim.
    destruct (webhooks_loop js []) as [resj|e].
    + intros (res & Hloop & Hres). rewrite (bind_run _ _ _ _ _ Hloop).
      exists l1, (<[l1 := Store.OList res]> h1), res.
      by rewrite lookup_insert_eq.
    + intros (res & Hloop). rewrite (bind_raise _ _ _ _ _ Hloop).
      by eexists.
  - (* a dict *)
    simpl py_iter. run.
    assert (h1 !! lw = Some (Store.ODict d')) as Hlw1
      by by apply (lookup_weaken h).
    assert (l1 ≠ lw) as Hne by congruence.
    assert (Store.for_in (Store.VRef lw)
              (Store.webhook_step (Store.VRef l1))
              (<[l1 := Store.OList []]> h1)
            = Store.for_each (Store.VStr <$> (map_to_list d').*1)
                (Store.webhook_step (Store.VRef l1))
                (<[l1 := Store.OList []]> h1)) as Hin.
    { unfold Store.for_in. by rewrite lookup_insert_ne, Hlw1 by done. }
    pose proof (repr_dict_size _ _ _ Hall') as Hsize.
    destruct (map_to_list dj') as [|[k v] kvs] eqn:Hj.
    + apply map_to_list_nil_size in Hj. rewrite <- Hsize in Hj.
      apply map_to_list_nil_size in Hj. rewrite Hj in Hin.
      rewrite (bind_run _ _ _ _ _ Hin). simpl.
      exists l1, (<[l1 := Store.OList []]> h1), [].
      by rewrite lookup_insert_eq.
    + destruct (map_to_list d') as [|[k' v'] kvs'] eqn:Hd.
      * apply map_to_list_nil_size in Hd. rewrite Hsize in Hd.
        apply map_to_list_nil_size in Hd. by rewrite Hd in Hj.
      * rewrite (bind_raise _ _ _ _ AttributeError Hin). by eexists.
Qed.

(** The list [valid_webhooks] stays a list through the loop. *)
Lemma get_mret_heap (h h' : Store.heap) (v x : Store.val) (k : string)
    (r : result Store.val) :
  Store.get v k (mret x) h = Some (r, h') → h' = h.
Proof.
  unfold Store.get. destruct v as [| | | |l]; try by intros [= <- <-].
  destruct (h !! l) as [[]|]; try done; by intros [= <- <-].
Qed.

Lemma webhook_step_keeps_list (h h' : Store.heap) (lv : Store.loc)
    (w : Store.val) (r : result unit) (a : list Store.val) :
  h !! lv = Some (Store.OList a) →
  Store.webhook_step (Store.VRef lv) w h = Some (r, h') →
  ∃ a', h' !! lv = Some (Store.OList a').
Proof.
  intros Hlv. unfold Store.webhook_step.
  intros [(url & h1 & Hurl & Hrest)|(e & Hurl & ->)]%bind_inv.
  2:{ apply get_mret_heap in Hurl as ->. eauto. }
  apply get_mret_heap in Hurl as ->.
  apply bind_inv in Hrest as [(b & h2 & Hb & Hrest)|(e & Hb & ->)].
  2:{ apply truthy_frame in Hb as ->. eauto. }
  apply truthy_frame in Hb as ->. destruct b; simpl in Hrest.
  - unfold Store.append in Hrest. rewrite Hlv in Hrest.
    injection Hrest as <- <-. rewrite lookup_insert_eq. eauto.
  - apply bind_inv in Hrest as [(x & h3 & Hx & [= <- <-])|(e & Hx & ->)];
      apply get_mret_heap in Hx as ->; eauto.
Qed.

Lemma for_list_keeps_list (lv lw : Store.loc) (bound i : nat)
    (h h' : Store.heap) (r : result unit) (a : list Store.val) :
  h !! lv = Some (Store.OList a) →
  Store.for_list bound lw i (Store.webhook_step (Store.VRef lv)) h
  = Some (r, h') →
  ∃ a', h' !! lv = Some (Store.OList a').
Proof.
  revert i h a. induction bound as [|bound IH]; intros i h a Hlv; [done|].
  simpl. intros [(x & h1 & Hx & Hrest)|(e & Hx & ->)]%bind_inv.
  2:{ unfold Store.next_item in Hx. by destruct (h !! lw) as [[]|]. }
  assert (h1 = h) as ->.
  { unfold Store.next_item in Hx. destruct (h !! lw) as [[]|]; congruence. }
  destruct x as [x|]; [|injection Hrest as <- <-; eauto].
  apply bind_inv in Hrest as [(u & h2 & Hu & Hrest)|(e & Hu & ->)].
  - destruct (webhook_step_keeps_list _ _ _ _ _ _ Hlv Hu) as [a' Ha'].
    by eapply IH.
  - by eapply webhook_step_keeps_list.
Qed.

Lemma for_each_keeps_list (lv : Store.loc) (xs : list Store.val)
    (h h' : Store.heap) (r : result unit) (a : list Store.val) :
  h !! lv = Some (Store.OList a) →
  Store.for_each xs (Store.webhook_step (Store.VRef lv)) h = Some (r, h') →
  ∃ a', h' !! lv = Some (Store.OList a').
Proof.
  revert h a. induction xs as [|x xs IH]; intros h a Hlv.
  { intros [= <- <-]. eauto. }
  simpl. intros [(u & h2 & Hu & Hrest)|(e & Hu & ->)]%bind_inv.
  - destruct (webhook_step_keeps_list _ _ _ _ _ _ Hlv Hu) as [a' Ha'].
    by eapply IH.
  - by eapply webhook_step_keeps_list.
Qed.

(** X18. Every run of [Store.get_webhooks], also one that raises, leaves
    the objects of the store as they were; a run that returns gives a
    reference to a new list object, never to a stored one. *)
Theorem get_webhooks_returns_new_list (h h' : Store.heap)
    (subscription : Store.val) (r : result Store.val) :
  Store.get_webhooks subscription h = Some (r, h') →
  (∀ l0 o, h !! l0 = Some o → h' !! l0 = Some o)
  ∧ (∀ v, r = Ok v →
          ∃ l items,
            v = Store.VRef l
            ∧ h !! l = None
            ∧ h' !! l = Some (Store.OList items)).
Proof.
  intros Hrun. split.
  { intros l0 o Ho. eapply lookup_weaken; [exact Ho|].
    by eapply get_webhooks_frame. }
  intros v ->. revert Hrun. unfold Store.get_webhooks.
  intros [(webhooks & h1 & Hget & Hrest)|(e & _ & [=])]%bind_inv.
  assert (h ⊆ h1) as Hsub1.
  { eapply get_frame; [|reflexivity|exact Hget].
    intros. by eapply alloc_frame. }
  apply bind_inv in Hrest as [(v' & h2 & [= <- <-] & Hrest)|(e & [=] & _)].
  set (lv := fresh (dom h1)) in *.
  assert (h1 !! lv = None) as Hlv by apply not_elem_of_dom, is_fresh.
  apply bind_inv in Hrest as [(u & h3 & Hu & [= <- <-])|(e & _ & [=])].
  exists lv. 
  assert (∃ a', h3 !! lv = Some (Store.OList a')) as [a' Ha'].
  { assert (<[lv := Store.OList []]> h1 !! lv = Some (Store.OList []))
      as Hnew by apply lookup_insert_eq.
    revert Hu. unfold Store.for_in. destruct webhooks as [| | |s|l].
    1-3: done.
    - by apply for_each_keeps_list with (a := []).
    - destruct (_ !! l) as [[]|]; [| |done].
      + by apply for_list_keeps_list with (a := []).
      + by apply for_each_keeps_list with (a := []). }
  exists a'. split; [done|]. split; [|done].
  by eapply lookup_weaken_None.
Qed.

End StoreRefinement.

(** * Instances of the further properties *)

Lemma repr_fields_empty (h : gmap positive Store.obj) (k : string) :
  option_Forall2 (repr h) ((∅ : gmap string Store.val) !! k)
    ((∅ : gmap string json) !! k).
Proof. rewrite !lookup_empty. constructor. Qed.

Lemma repr_fields_insert (h : gmap positive Store.obj)
    (d : gmap string Store.val) (dj : gmap string json) (k0 : string)
    (x : Store.val) (xj : json) :
  repr h x xj →
  (∀ k, option_Forall2 (repr h) (d !! k) (dj !! k)) →
  ∀ k, option_Forall2 (repr h) (<[k0 := x]> d !! k) (<[k0 := xj]> dj !! k).
Proof.
  intros Hx Hd k. destruct (decide (k0 = k)) as [->|Hne].
  - rewrite !lookup_insert_eq. by constructor.
  - rewrite !lookup_insert_ne by done. apply Hd.
Qed.

Lemma repr_entry (h : gmap positive Store.obj) (l : positive) (k s : string) :
  h !! l = Some (Store.ODict (<[k := Store.VStr s]> ∅)) →
  repr h (Store.VRef l) (JObj (<[k := JStr s]> ∅)).
Proof.
  intros Hl. eapply repr_dict; [exact Hl|].
  apply repr_fields_insert; [constructor|]. apply repr_fields_empty.
Qed.

Lemma example_heap_repr :
  repr example_heap (Store.VRef 1) example_subscription.
Proof.
  apply (repr_dict _ 1 (<["name" := Store.VStr "s"]>
                        (<["webhooks" := Store.VRef 2]> ∅)));
    [vm_compute; reflexivity|].
  apply repr_fields_insert; [constructor|].
  apply repr_fields_insert; [|apply repr_fields_empty].
  apply (repr_list _ 2 [Store.VRef 3; Store.VRef 4; Store.VRef 5;
                        Store.VRef 6]); [vm_compute; reflexivity|].
  repeat apply List.Forall2_cons; try apply List.Forall2_nil;
    apply repr_entry; vm_compute; reflexivity.
Qed.


Lemma match_length_bounded_witness :
  ∃ matched,
    match_news_for_subscription ascii_lower (JObj sub_chip) news_chip
    = Ok matched
    ∧ (length matched ≤ length news_chip)%nat
    ∧ (0 < limit rule_chip → Z.of_nat (length matched) ≤ limit rule_chip).
Proof.
  apply (match_length_bounded ascii_lower sub_chip rule_chip news_chip).
  - vm_compute; reflexivity.
  - repeat constructor; eexists; vm_compute; reflexivity.
Defined.

Lemma match_idempotent_witness :
  ∃ matched,
    match_news_for_subscription ascii_lower (JObj sub_ai) news_ai = Ok matched
    ∧ match_news_for_subscription ascii_lower (JObj sub_ai) matched
      = Ok matched.
Proof.
  apply (match_idempotent ascii_lower sub_ai rule_ai news_ai).
  - vm_compute; reflexivity.
  - repeat constructor; eexists; vm_compute; reflexivity.
Defined.

Lemma match_unlimited_app_witness :
  ∃ matched1 matched2,
    match_news_for_subscription ascii_lower (JObj sub_ai) news_ai
    = Ok matched1
    ∧ match_news_for_subscription ascii_lower (JObj sub_ai) news_chip
      = Ok matched2
    ∧ match_news_for_subscription ascii_lower (JObj sub_ai)
        (news_ai ++ news_chip)
      = Ok (matched1 ++ matched2).
Proof.
  apply (match_unlimited_app ascii_lower sub_ai rule_ai news_ai news_chip).
  - vm_compute; reflexivity.
  - simpl; lia.
  - repeat constructor; eexists; vm_compute; reflexivity.
  - repeat constructor; eexists; vm_compute; reflexivity.
Defined.

Lemma match_bad_limit_raises_witness :
  match_news_for_subscription ascii_lower (JObj sub_bad_limit) news_ai
  = Raise TypeError.
Proof.
  apply (match_bad_limit_raises ascii_lower sub_bad_limit kw_bad_limit
           (JStr "10") news_ai).
  - vm_compute; reflexivity.
  - vm_compute; reflexivity.
  - reflexivity.
Defined.

Lemma match_empty_excluded_term_witness :
  match_news_for_subscription ascii_lower (JObj sub_veto_all) news_ai = Ok [].
Proof.
  apply (match_empty_excluded_term ascii_lower sub_veto_all rule_veto_all
           news_ai).
  - reflexivity.
  - vm_compute; reflexivity.
  - simpl. auto.
  - repeat constructor; eexists; vm_compute; reflexivity.
Defined.

Lemma limit_below_threshold_triggers_ai_witness :
  ∃ matched,
    match_news_for_subscription ascii_lower (JObj sub_capped) news_chip
    = Ok matched
    ∧ should_enable_ai_search (JObj sub_capped) (Z.of_nat (length matched))
      = Ok true.
Proof.
  apply (limit_below_threshold_triggers_ai ascii_lower sub_capped ai_eager
           rule_chip 3 news_chip).
  - vm_compute; reflexivity.
  - repeat constructor; eexists; vm_compute; reflexivity.
  - vm_compute; reflexivity.
  - vm_compute; reflexivity.
  - vm_compute; reflexivity.
  - simpl; lia.
Defined.

Lemma should_enable_ai_search_monotone_witness :
  should_enable_ai_search (JObj sub_full) 0 = Ok true.
Proof.
  apply (should_enable_ai_search_monotone (JObj sub_full) 1 0).
  - lia.
  - vm_compute; reflexivity.
Defined.

Lemma resolved_config_is_stable_witness :
  ∃ cfg,
    get_ai_search_config (JObj sub_full) = Ok cfg
    ∧ get_ai_search_config (JObj (<["ai_search" := cfg]> sub_full)) = Ok cfg
    ∧ ∀ n, should_enable_ai_search (JObj (<["ai_search" := cfg]> sub_full)) n
           = should_enable_ai_search (JObj sub_full) n.
Proof.
  assert (∃ cfg, get_ai_search_config (JObj sub_full) = Ok cfg) as [cfg Hcfg]
    by (vm_compute; eexists; reflexivity).
  exists cfg. split; [exact Hcfg|].
  apply (resolved_config_is_stable sub_full cfg Hcfg).
Defined.

Lemma has_subscriptions_validate_witness :
  validate_config (manager_of []) = Ok (false, [WarnNoSubscriptions])
  ∧ has_subscriptions (manager_of [sub_full]) = Ok true.
Proof.
  split.
  - apply (has_subscriptions_validate (manager_of [])).
    vm_compute; reflexivity.
  - apply (has_subscriptions_validate (manager_of [sub_full]))
      with (out := [ValidationPassed]).
    vm_compute; reflexivity.
Defined.

Lemma get_active_subscriptions_spec_witness :
  ∃ active,
    get_active_subscriptions (manager_of three_subs) = Ok (JObj <$> active)
    ∧ active `sublist_of` three_subs
    ∧ ∀ d, d ∈ active
           ↔ d ∈ three_subs
             ∧ (d !! "enabled" = None
                ∨ ∃ v, d !! "enabled" = Some v ∧ truthy v = true).
Proof.
  apply (get_active_subscriptions_spec (manager_of three_subs) three_subs).
  reflexivity.
Defined.

Lemma get_subscription_by_id_first_witness :
  get_subscription_by_id
    (manager_raw (JList [JObj sub_bare; JObj sub_full; JNull]))
    "sub_example_001"
  = Ok (Some (JObj sub_full)).
Proof.
  apply (get_subscription_by_id_first
           (manager_raw (JList [JObj sub_bare; JObj sub_full; JNull]))
           [sub_bare] sub_full [JNull] "sub_example_001").
  - reflexivity.
  - apply List.Forall_cons; [vm_compute; discriminate|apply List.Forall_nil].
  - vm_compute; reflexivity.
Defined.

Lemma get_subscription_by_id_sound_witness :
  ∃ pre d post,
    subscriptions (manager_of three_subs)
    = JList ((JObj <$> pre) ++ JObj d :: post)
    ∧ JObj sub_full = JObj d
    ∧ d !! "id" = Some (JStr "sub_example_001")
    ∧ Forall (λ d', d' !! "id" ≠ Some (JStr "sub_example_001")) pre.
Proof.
  apply (get_subscription_by_id_sound (manager_of three_subs)
           "sub_example_001").
  vm_compute; reflexivity.
Defined.

Lemma get_statistics_spec_witness :
  ∃ active webhooks ai_enabled : nat,
    get_statistics (manager_of three_subs)
    = Ok (JObj
        (<["total_subscriptions" := JInt (Z.of_nat (length three_subs))]>
        (<["active_subscriptions" := JInt (Z.of_nat active)]>
        (<["total_webhooks" := JInt (Z.of_nat webhooks)]>
        (<["ai_enabled_count" := JInt (Z.of_nat ai_enabled)]>
        (<["config_version" :=
             default (JStr "未知") (doc_of three_subs !! "version")]>
           ∅))))))
    ∧ active = length (List.filter is_active three_subs)
    ∧ webhooks = sum_list (stored_webhook_count <$> three_subs)
    ∧ ai_enabled = length (List.filter ai_on three_subs)
    ∧ (active ≤ length three_subs)%nat
    ∧ (ai_enabled ≤ length three_subs)%nat.
Proof.
  apply (get_statistics_spec (manager_of three_subs) three_subs
           (doc_of three_subs)).
  - vm_compute; reflexivity.
  - repeat constructor; eexists; vm_compute; reflexivity.
  - reflexivity.
Defined.

Lemma statistics_count_stored_webhooks_witness :
  ∃ (c : gmap string json) (n : nat),
    get_statistics (manager_of three_subs) = Ok (JObj c)
    ∧ c !! "total_webhooks" = Some (JInt (Z.of_nat n))
    ∧ (sum_list (usable_webhook_count <$> three_subs) ≤ n)%nat
    ∧ (∀ out, validate_config (manager_of three_subs) = Ok (true, out) →
              sum_list (usable_webhook_count <$> three_subs) = n).
Proof.
  apply (statistics_count_stored_webhooks (manager_of three_subs) three_subs
           (doc_of three_subs)).
  - vm_compute; reflexivity.
  - repeat constructor; eexists; vm_compute; reflexivity.
  - reflexivity.
Defined.

Lemma no_ai_enabled_never_triggers_witness :
  ∃ c : gmap string json,
    get_statistics (manager_of [sub_bare; sub_no_hooks]) = Ok (JObj c)
    ∧ (c !! "ai_enabled_count" = Some (JInt 0) →
       Forall (λ sub, ∀ n, should_enable_ai_search (JObj sub) n = Ok false)
         [sub_bare; sub_no_hooks]).
Proof.
  apply (no_ai_enabled_never_triggers (manager_of [sub_bare; sub_no_hooks])
           [sub_bare; sub_no_hooks] (doc_of [sub_bare; sub_no_hooks])).
  - vm_compute; reflexivity.
  - repeat constructor; eexists; vm_compute; reflexivity.
  - reflexivity.
Defined.

Lemma validated_webhooks_complete_witness :
  ∃ subs,
    subscriptions (manager_of [sub_full]) = JList subs
    ∧ subs ≠ []
    ∧ Forall (λ sub, ∃ ws, ws ≠ []
                           ∧ dict_get sub "webhooks" (JList [])
                             = Ok (JList ws)
                           ∧ get_webhooks sub = Ok ws) subs.
Proof.
  apply (validated_webhooks_complete (manager_of [sub_full])
           [ValidationPassed]).
  vm_compute; reflexivity.
Defined.

Lemma null_webhooks_raise_witness :
  get_webhooks (JObj sub_null_hooks) = Raise TypeError
  ∧ (truthy JNull = false →
     ∀ idx errors,
       ∃ errors',
         check_subscription idx (JObj sub_null_hooks) errors
         = (Ok (), errors')
         ∧ last errors'
           = Some {| err_sub := sub_label idx sub_null_hooks;
                     err_what := MissingWebhooks |}).
Proof.
  apply (null_webhooks_raise sub_null_hooks JNull).
  - vm_compute; reflexivity.
  - reflexivity.
Defined.

Lemma get_webhooks_returns_new_list_witness :
  ∃ r h',
    Store.get_webhooks (Store.VRef 1) example_heap = Some (r, h')
    ∧ (∀ l0 o, example_heap !! l0 = Some o → h' !! l0 = Some o)
    ∧ (∀ v, r = Ok v →
            ∃ l items,
              v = Store.VRef l
              ∧ example_heap !! l = None
              ∧ h' !! l = Some (Store.OList items)).
Proof.
  assert (∃ r h',
            Store.get_webhooks (Store.VRef 1) example_heap = Some (r, h'))
    as (r & h' & Hrun) by (vm_compute; eexists _, _; reflexivity).
  exists r, h'. split; [exact Hrun|].
  apply (get_webhooks_returns_new_list example_heap h' (Store.VRef 1) r Hrun).
Defined.

Lemma get_webhooks_refines_witness :
  match get_webhooks example_subscription with
  | Ok js =>
      ∃ l h' items,
        Store.get_webhooks (Store.VRef 1) example_heap
        = Some (Ok (Store.VRef l), h')
        ∧ example_heap !! l = None
        ∧ h' !! l = Some (Store.OList items)
        ∧ Forall2 (repr example_heap) items js
  | Raise e =>
      ∃ h', Store.get_webhooks (Store.VRef 1) example_heap
            = Some (Raise e, h')
  end.
Proof.
  apply (get_webhooks_refines example_heap (Store.VRef 1)
           example_subscription).
  apply example_heap_repr.
Defined.

Lemma init_invariant_witness :
  config_path (manager_of [sub_full]) = "config/subscriptions.json"
  ∧ (∃ cd,
       config_data (manager_of [sub_full]) = JObj cd
       ∧ subscriptions (manager_of [sub_full])
         = default (JList []) (cd !! "subscriptions")
       ∧ global_settings (manager_of [sub_full])
         = default (JObj ∅) (cd !! "global_settings")
       ∧ (if disk_exists "config/subscriptions.json"
          then disk_read (JObj (doc_of [sub_full]))
                 "config/subscriptions.json" = ReadOk (JObj cd)
          else cd = ∅))
  ∧ (∃ b, has_subscriptions (manager_of [sub_full]) = Ok b)
  ∧ get_global_settings (manager_of [sub_full])
    = global_settings (manager_of [sub_full]).
Proof.
  apply (init_invariant disk_exists (disk_read (JObj (doc_of [sub_full])))
           "config/subscriptions.json" (manager_of [sub_full])).
  vm_compute; reflexivity.
Defined.

Lemma init_missing_file_witness :
  ∃ self,
    __init__ no_file (disk_read JNull) "config/subscriptions.json"
    = Constructed self
    ∧ has_subscriptions self = Ok false
    ∧ validate_config self = Ok (false, [WarnNoSubscriptions])
    ∧ get_active_subscriptions self = Ok []
    ∧ get_subscription_by_id self "sub_example_001" = Ok None
    ∧ get_global_settings self = JObj ∅
    ∧ get_statistics self
      = Ok (JObj (<["total_subscriptions" := JInt 0]>
                 (<["active_subscriptions" := JInt 0]>
                 (<["total_webhooks" := JInt 0]>
                 (<["ai_enabled_count" := JInt 0]>
                 (<["config_version" := JStr "未知"]> ∅)))))).
Proof.
  apply (init_missing_file no_file (disk_read JNull)
           "config/subscriptions.json" "sub_example_001").
  reflexivity.
Defined.

Lemma init_raises_witness :
  __init__ any_file (disk_read (JList [])) "config/subscriptions.json"
  = InitRaised (LoadError AttributeError)
  ∧ __init__ any_file (λ _, ReadBadJson) "config/subscriptions.json"
    = InitRaised JSONDecodeError.
Proof.
  split.
  - destruct (init_raises any_file (disk_read (JList []))
                "config/subscriptions.json" eq_refl)
      as (_ & _ & Hdict & _).
    apply (Hdict (JList [])); reflexivity.
  - destruct (init_raises any_file (λ _, ReadBadJson)
                "config/subscriptions.json" eq_refl)
      as (Hbad & _).
    apply Hbad; reflexivity.
Defined.


Lemma sample_config_validates_witness :
  ∃ self,
    __init__ any_file (disk_read (sample_config (JObj ∅)))
      "config/subscriptions_sample.json"
    = Constructed self
    ∧ config_data self = sample_config (JObj ∅)
    ∧ validate_config self = Ok (true, [ValidationPassed])
    ∧ get_statistics self
      = Ok (JObj (<["total_subscriptions" := JInt 1]>
                 (<["active_subscriptions" := JInt 1]>
                 (<["total_webhooks" := JInt 1]>
                 (<["ai_enabled_count" := JInt 0]>
                 (<["config_version" := JStr "1.0"]> ∅)))))).
Proof.
  apply (sample_config_validates (JObj ∅) any_file
           (disk_read (sample_config (JObj ∅)))
           "config/subscriptions_sample.json").
  - reflexivity.
  - reflexivity.
Defined.
